(** * YoutubeRAG-agent: timestamp-aware chunking and chat session

    A shallow embedding of the two Python programs of the repository,

    - [load_to_chroma.py]: playlist enumeration, the timestamp map builder,
      the chunk locator and the per-video indexing loop;
    - [app.py]: the citation link, the source excerpt and the chat-input
      handler of the Streamlit front end;

    followed by the properties of the specification that concern them.

    Conventions.  A Python [str] is a Stdlib [string]; a character is an
    [ascii], read as a code point below 256.  A Python [int] is a [Z].  A
    Python [float] is either a finite value, kept as the rational it denotes,
    an infinity or NaN; the programs never do arithmetic on floats, they only
    store them and truncate them with [int()].  A [dict] is an association
    list in insertion order.  A call that may raise returns a [result]. *)

From Stdlib Require Import ZArith QArith Qround List Bool Lia.
From Stdlib Require Import Strings.Ascii Strings.String Numbers.DecimalString.
From Stdlib Require Import Sorting.Sorted.
Import ListNotations.

Open Scope string_scope.
Open Scope Z_scope.

(* ================================================================== *)
(** * Part I: the programs                                             *)
(* ================================================================== *)

(** ** Python primitives used by the two programs *)

Module Py.

(** Exceptions (the classes deriving from [Exception]): the class name and
    what [str(e)] prints. *)
Record exn := Exn { exn_class : string; exn_str : string }.

(** The outcome of a call that may raise. *)
Inductive result (A : Type) : Type :=
| Ok (a : A)
| Raise (e : exn).
Arguments Ok {A} a.
Arguments Raise {A} e.

Definition bind {A B} (r : result A) (k : A -> result B) : result B :=
  match r with
  | Ok a => k a
  | Raise e => Raise e
  end.

(** A float: a finite value (the rational it denotes), an infinity, NaN. *)
Inductive float :=
| Finite (q : Q)
| Inf (negative : bool)
| NaN.

(** A number as the programs hold it: the literal [0] is an [int], a
    caption's start time is a [float]. *)
Inductive num :=
| Int (z : Z)
| Float (f : float).

(** [int(x)]: truncation toward zero; raises on infinities and NaN. *)
Definition int (x : num) : result Z :=
  match x with
  | Int z => Ok z
  | Float (Finite q) => Ok (Z.quot (Qnum q) (Zpos (Qden q)))
  | Float (Inf _) =>
      Raise (Exn "OverflowError" "cannot convert float infinity to integer")
  | Float NaN =>
      Raise (Exn "ValueError" "cannot convert float NaN to integer")
  end.

(** [str(z)] for an [int]: decimal digits, a leading minus when negative. *)
Definition str_of_int (z : Z) : string := NilZero.string_of_int (Z.to_int z).

(** [len(s)] *)
Definition len (s : string) : Z := Z.of_nat (String.length s).

(** [s.find(sub, start)]: the lowest index at or after [start] where [sub]
    occurs in [s], or [-1].  A negative [start] counts from the end and is
    clipped at 0.  Stdlib's [index] has the same corner cases: the empty
    string is found at [start] when [start <= len(s)] and nowhere beyond. *)
Definition find (s sub : string) (start : Z) : Z :=
  let start := if start <? 0 then Z.max 0 (start + len s) else start in
  match index (Z.to_nat start) sub s with
  | Some p => Z.of_nat p
  | None => -1
  end.

(** [c.isspace()] for a code point below 256: tab, LF, VT, FF, CR, the
    separators 0x1c-0x1f, space, NEL (0x85) and NBSP (0xa0). *)
Definition isspace (c : ascii) : bool :=
  let n := nat_of_ascii c in
  ((9 <=? n) && (n <=? 13) || (28 <=? n) && (n <=? 32)
   || (n =? 133) || (n =? 160))%nat.

Fixpoint lstrip (s : string) : string :=
  match s with
  | EmptyString => EmptyString
  | String c s' => if isspace c then lstrip s' else s
  end.

Fixpoint rstrip (s : string) : string :=
  match s with
  | EmptyString => EmptyString
  | String c s' =>
      match rstrip s' with
      | EmptyString => if isspace c then EmptyString else String c EmptyString
      | r => String c r
      end
  end.

(** [s.strip()] *)
Definition strip (s : string) : string := rstrip (lstrip s).

(** [s[:n]] for [n >= 0] *)
Definition str_slice_to (s : string) (n : nat) : string := substring 0 n s.

(** [s.split(sep)] for a one-character separator. *)
Fixpoint split (sep : ascii) (s : string) : list string :=
  match s with
  | EmptyString => [EmptyString]
  | String c s' =>
      if Ascii.eqb c sep then EmptyString :: split sep s'
      else match split sep s' with
           | h :: t => String c h :: t
           | [] => [String c EmptyString]
           end
  end.

(** [l[:n]]: the first [n] items; a negative [n] drops the last [-n]. *)
Definition slice_to {A} (l : list A) (n : Z) : list A :=
  if n <? 0 then firstn (Z.to_nat (Z.of_nat (List.length l) + n)) l
  else firstn (Z.to_nat n) l.

(** A [dict] with [int] keys: the items in insertion order.  Assigning to
    a key already present replaces its value in place. *)
Definition dict (V : Type) := list (Z * V).

Fixpoint dict_set {V} (d : dict V) (k : Z) (v : V) : dict V :=
  match d with
  | [] => [(k, v)]
  | (k', v') :: d' =>
      if k' =? k then (k, v) :: d' else (k', v') :: dict_set d' k v
  end.

Definition items {V} (d : dict V) : list (Z * V) := d.

End Py.

Notation "x <- r ;; k" := (Py.bind r (fun x => k))
  (at level 61, r at next level, right associativity).

(** ** load_to_chroma.py *)

Module Snippet.
(** A caption snippet as the transcript service yields it. *)
Record t := Make { text : string; start : Py.float }.
End Snippet.

Module Chunk.
(** The dict [{"text": ..., "start_time": ...}] appended for each chunk. *)
Record t := Make { text : string; start_time : Py.num }.
End Chunk.

Module Document.
(** A LangChain [Document]: page content and the two metadata fields. *)
Record t := Make { page_content : string; video_url : string; start_time : Py.num }.
End Document.

Module LoadToChroma.
Import Py.

(** Configuration *)
Definition PLAYLIST_URL : string :=
  "https://www.youtube.com/playlist?list=PL0vfts4VzfNiI1BsIK5u7LpPaIDKMJIDN".
Definition MAX_VIDEOS_TO_PROCESS : Z := 20.
Definition CHUNK_SIZE : Z := 1000.
Definition CHUNK_OVERLAP : Z := 200.
Definition LANGUAGES : list string := ["en"; "en-US"; "en-GB"].
Definition SEPARATORS : list string :=
  [String "010" (String "010" ""); String "010" ""; ". "; "! "; "? "; " "; ""].

(** An entry of the playlist listing: [None], or a dict that may hold a
    ['url'] key. *)
Inductive entry :=
| EntryNone
| EntryDict (url : option string).

(** The test [video and 'url' in video], with the URL it then appends. *)
Definition entry_url (video : entry) : option string :=
  match video with
  | EntryNone => None
  | EntryDict url => url
  end.

(** The loop over [playlist_dict.get('entries', [])]. *)
Definition collect_urls (entries : list entry) : list string :=
  fold_left
    (fun video_urls video =>
       match entry_url video with
       | Some url => (video_urls ++ [url])%list
       | None => video_urls
       end)
    entries [].

(** The test [if max_videos:]: neither [None] nor [0]. *)
Definition truthy (max_videos : option Z) : bool :=
  match max_videos with
  | None => false
  | Some n => negb (n =? 0)
  end.

(** The timestamp map builder: the loop over the fetched transcript. *)
Definition build_step (st : string * dict Py.float * Z) (snippet : Snippet.t)
  : string * dict Py.float * Z :=
  let '(full_transcript, timestamp_map, current_pos) := st in
  let text_to_add := Snippet.text snippet ++ " " in
  (full_transcript ++ text_to_add,
   dict_set timestamp_map current_pos (Snippet.start snippet),
   current_pos + len text_to_add).

Definition build_timestamp_map (fetched_transcript : list Snippet.t)
  : string * dict Py.float * Z :=
  fold_left build_step fetched_transcript ("", [], 0).

(** Where a chunk is placed: the position [find] reports, or the cursor
    itself when the text is not found. *)
Definition resolve_offset (full_transcript chunk_text : string)
  (search_start : Z) : Z :=
  let chunk_start_pos := find full_transcript chunk_text search_start in
  if chunk_start_pos =? -1 then search_start else chunk_start_pos.

(** The scan [for pos, timestamp in timestamp_map.items()] with its
    [break] at the first key beyond the chunk's position. *)
Fixpoint scan_items (its : list (Z * Py.float)) (chunk_start_pos : Z)
  (closest_timestamp : Py.num) : Py.num :=
  match its with
  | [] => closest_timestamp
  | (pos, timestamp) :: rest =>
      if pos <=? chunk_start_pos
      then scan_items rest chunk_start_pos (Float timestamp)
      else closest_timestamp
  end.

Definition closest_timestamp (timestamp_map : dict Py.float)
  (chunk_start_pos : Z) : Py.num :=
  scan_items (items timestamp_map) chunk_start_pos (Int 0).

(** One turn of the loop over [text_chunks]; the state is the list of
    chunks so far and the cursor [search_start]. *)
Definition locate_step (full_transcript : string)
  (timestamp_map : dict Py.float) (st : list Chunk.t * Z)
  (chunk_text : string) : list Chunk.t * Z :=
  let '(chunks, search_start) := st in
  let chunk_start_pos := resolve_offset full_transcript chunk_text search_start in
  let closest := closest_timestamp timestamp_map chunk_start_pos in
  ((chunks ++ [Chunk.Make (strip chunk_text) closest])%list,
   chunk_start_pos + len chunk_text).

Definition locate_chunks (full_transcript : string)
  (timestamp_map : dict Py.float) (text_chunks : list string)
  : list Chunk.t * Z :=
  fold_left (locate_step full_transcript timestamp_map) text_chunks ([], 0).

(** What one turn of that loop does, written down for the proofs: the
    cursor before, the chunk text, the resolved offset, the chunk appended
    and the cursor after.  [locate_chunks_placements] relates the list of
    these to [locate_chunks]. *)
Record placement := Placement {
  search_start_before : Z;
  placed_text : string;
  resolved_offset : Z;
  emitted : Chunk.t;
  search_start_after : Z
}.

Fixpoint placements (full_transcript : string)
  (timestamp_map : dict Py.float) (text_chunks : list string)
  (search_start : Z) : list placement :=
  match text_chunks with
  | [] => []
  | chunk_text :: rest =>
      let chunk_start_pos := resolve_offset full_transcript chunk_text search_start in
      let closest := closest_timestamp timestamp_map chunk_start_pos in
      let search_start' := chunk_start_pos + len chunk_text in
      Placement search_start chunk_text chunk_start_pos
                (Chunk.Make (strip chunk_text) closest) search_start'
      :: placements full_transcript timestamp_map rest search_start'
  end.

Section Collaborators.

(** The services the program calls: the playlist listing of yt-dlp, the
    transcript service, and LangChain's recursive text splitter (chunk
    size, overlap, separators, text).  Each may raise. *)
Variable extract_info : string -> result (list entry).
Variable fetch : string -> list string -> result (list Snippet.t).
Variable split_text : Z -> Z -> list string -> string -> result (list string).

Definition get_video_urls (playlist_url : string) (max_videos : option Z)
  : list string :=
  match extract_info playlist_url with
  | Raise _ => []
  | Ok entries =>
      let video_urls := collect_urls entries in
      if truthy max_videos
      then match max_videos with
           | Some n => slice_to video_urls n
           | None => video_urls
           end
      else video_urls
  end.

(** [video_url.split("=")[-1]] *)
Definition video_id_of (video_url : string) : string :=
  last (split "="%char video_url) "".

(** The body of the [try] block. *)
Definition chunks_body (video_url : string) (chunk_size chunk_overlap : Z)
  : result (list Chunk.t) :=
  let video_id := video_id_of video_url in
  fetched_transcript <- fetch video_id LANGUAGES ;;
  let '(full_transcript, timestamp_map, _) :=
    build_timestamp_map fetched_transcript in
  text_chunks <- split_text chunk_size chunk_overlap SEPARATORS full_transcript ;;
  Ok (fst (locate_chunks full_transcript timestamp_map text_chunks)).

(** The two [except] clauses: a missing or disabled transcript, then any
    other [Exception]; both return the empty list. *)
Definition create_chunks_with_timestamps (video_url : string)
  (chunk_size chunk_overlap : Z) : result (list Chunk.t) :=
  match chunks_body video_url chunk_size chunk_overlap with
  | Ok chunks => Ok chunks
  | Raise e =>
      if (exn_class e =? "NoTranscriptFound")%string
         || (exn_class e =? "TranscriptsDisabled")%string
      then Ok []
      else Ok []
  end.

(** The inner loop of the main block: one [Document] per chunk. *)
Definition append_docs (video_url : string) (all_docs : list Document.t)
  (chunks : list Chunk.t) : list Document.t :=
  fold_left
    (fun all_docs chunk =>
       (all_docs
        ++ [Document.Make (Chunk.text chunk) video_url (Chunk.start_time chunk)])%list)
    chunks all_docs.

(** The outer loop of the main block over [video_urls]. *)
Fixpoint process_videos (video_urls : list string)
  (all_docs : list Document.t) : result (list Document.t) :=
  match video_urls with
  | [] => Ok all_docs
  | video_url :: rest =>
      chunks <- create_chunks_with_timestamps video_url CHUNK_SIZE CHUNK_OVERLAP ;;
      process_videos rest (append_docs video_url all_docs chunks)
  end.

(** The main block up to the documents handed to the vector store. *)
Definition main_docs : result (list Document.t) :=
  let video_urls := get_video_urls PLAYLIST_URL (Some MAX_VIDEOS_TO_PROCESS) in
  process_videos video_urls [].

End Collaborators.

End LoadToChroma.

(** ** app.py *)

Module Source.
(** The dict [{"link": ..., "content": ...}] kept for each source. *)
Record t := Make { link : string; content : string }.
End Source.

Module Message.
(** A chat message; only an answer carries the ["sources"] key. *)
Record t := Make {
  role : string;
  content : string;
  sources : option (list Source.t)
}.
End Message.

Module Response.
(** What the question-answering chain returns. *)
Record t := Make { result : string; source_documents : list Document.t }.
End Response.

Module App.
Import Py.

(** The chain held in the session: retrieval, then generation. *)
Definition chain := string -> result Response.t.

(** [st.session_state] *)
Record session_state := SessionState {
  messages : list Message.t;
  api_key_configured : bool;
  qa_chain : option chain
}.

(** What the page shows, one item per Streamlit call, in order.  The two
    calls whose label holds a pictograph are kept as constructors:
    [expander_sources] is the "View Sources" expander, and
    [source_header i link] is the line "Source i:" with the link as its
    text and target. *)
Inductive ui :=
| chat_message (role : string)
| spinner
| write (s : string)
| markdown (s : string)
| error (s : string)
| expander_sources
| source_header (i : Z) (link : string).

Record world := World { session : session_state; screen : list ui }.

(** A step of the script: it may change the session and the page, and it
    may raise; what it did before raising stays done. *)
Definition action (A : Type) := world -> result A * world.

Definition ret {A} (a : A) : action A := fun w => (Ok a, w).

Definition abind {A B} (m : action A) (k : A -> action B) : action B :=
  fun w =>
    match m w with
    | (Ok a, w') => k a w'
    | (Raise e, w') => (Raise e, w')
    end.

Definition lift {A} (r : result A) : action A := fun w => (r, w).

(** [try: body  except Exception as e: handler(e)] *)
Definition try_except {A} (body : action A) (handler : exn -> action A)
  : action A :=
  fun w =>
    match body w with
    | (Ok a, w') => (Ok a, w')
    | (Raise e, w') => handler e w'
    end.

Definition show (u : ui) : action unit :=
  fun w => (Ok tt, World (session w) (screen w ++ [u])%list).

Fixpoint show_all (us : list ui) : action unit :=
  match us with
  | [] => ret tt
  | u :: rest => abind (show u) (fun _ => show_all rest)
  end.

(** [st.session_state.messages.append(m)] *)
Definition append_message (m : Message.t) : action unit :=
  fun w =>
    let s := session w in
    (Ok tt,
     World (SessionState (messages s ++ [m])%list (api_key_configured s) (qa_chain s))
           (screen w)).

(** [st.session_state.qa_chain({"query": prompt})]; calling [None]
    raises a [TypeError]. *)
Definition call_qa_chain (prompt : string) : action Response.t :=
  fun w =>
    match qa_chain (session w) with
    | Some chain => (chain prompt, w)
    | None => (Raise (Exn "TypeError" "'NoneType' object is not callable"), w)
    end.

Definition format_timestamp_link (video_url : string) (start_time : num)
  : result string :=
  t <- int start_time ;;
  Ok (video_url ++ "&t=" ++ str_of_int t ++ "s").

(** The loop over [response["source_documents"]]. *)
Fixpoint prepare_sources (docs : list Document.t) (sources : list Source.t)
  : result (list Source.t) :=
  match docs with
  | [] => Ok sources
  | doc :: rest =>
      let video_url := Document.video_url doc in
      let start_time := Document.start_time doc in
      timestamp_link <- format_timestamp_link video_url start_time ;;
      prepare_sources rest
        (sources ++ [Source.Make timestamp_link (Document.page_content doc)])%list
  end.

(** The excerpt shown under a source. *)
Definition excerpt (source : Source.t) : string :=
  str_slice_to (Source.content source) 200.

Definition excerpt_line (source : Source.t) : string :=
  "> " ++ excerpt source ++ "...".

(** The loop [for i, source in enumerate(sources, 1)] inside the
    expander; [n] is [len(sources)]. *)
Fixpoint show_sources (i n : Z) (sources : list Source.t) : list ui :=
  match sources with
  | [] => []
  | source :: rest =>
      ([source_header i (Source.link source); markdown (excerpt_line source)]
       ++ (if i <? n then [markdown "---"] else [])
       ++ show_sources (i + 1) n rest)%list
  end.

Definition error_message (e : exn) : string :=
  "Sorry, I encountered an error: " ++ exn_str e.

(** The body of the [try] block of the chat-input branch. *)
Definition answer_body (prompt : string) : action unit :=
  abind (call_qa_chain prompt) (fun response =>
  let answer := Response.result response in
  abind (show (write answer)) (fun _ =>
  abind (lift (prepare_sources (Response.source_documents response) [])) (fun sources =>
  abind (match sources with
         | [] => ret tt
         | _ => show_all (expander_sources
                          :: show_sources 1 (Z.of_nat (List.length sources)) sources)
         end) (fun _ =>
  append_message (Message.Make "assistant" answer (Some sources)))))).

(** The [except] clause. *)
Definition answer_failed (e : exn) : action unit :=
  let error_msg := error_message e in
  abind (show (error error_msg)) (fun _ =>
  append_message (Message.Make "assistant" error_msg None)).

(** The chat-input branch of [main], run when the user submits [prompt]. *)
Definition on_chat_input (prompt : string) : action unit :=
  abind (append_message (Message.Make "user" prompt None)) (fun _ =>
  abind (show_all [chat_message "user"; write prompt;
                   chat_message "assistant"; spinner]) (fun _ =>
  try_except (answer_body prompt) answer_failed)).

End App.

(** ** load_to_chroma.py: the main block *)

Module LoadToChromaScript.
Import Py LoadToChroma.

Definition CHROMA_DB_PATH : string := "./chroma_db".

(** What the main block does to the database directory, in order: it
    removes it, and it has the vector store built from a list of documents
    and persisted there. *)
Inductive call :=
| rmtree (path : string)
| from_documents (docs : list Document.t) (persist_directory : string).

Section Collaborators.

Variable extract_info : string -> result (list entry).
Variable fetch : string -> list string -> result (list Snippet.t).
Variable split_text : Z -> Z -> list string -> string -> result (list string).

(** [shutil.rmtree], which raises when the path cannot be removed. *)
Variable shutil_rmtree : string -> result unit.

(** The embedding model and [Chroma.from_documents]; either may raise. *)
Variable chroma_from_documents : list Document.t -> string -> result unit.

Definition create_and_load_embeddings (docs : list Document.t)
  (chroma_db_path : string) : list call * result unit :=
  ([from_documents docs chroma_db_path], chroma_from_documents docs chroma_db_path).

(** The removal of the old database, lines 133-135: nothing to do when
    the path does not exist. *)
Definition remove_old_database (db_exists : bool) : list call * result unit :=
  if db_exists
  then ([rmtree CHROMA_DB_PATH], shutil_rmtree CHROMA_DB_PATH)
  else ([], Ok tt).

(** The main block: [db_exists] is [os.path.exists(CHROMA_DB_PATH)].  It
    returns the calls made and whether the script ended normally; an
    exception of the removal ends the script at once. *)
Definition main (db_exists : bool) : list call * result unit :=
  let '(removed, r0) := remove_old_database db_exists in
  match r0 with
  | Raise e => (removed, Raise e)
  | Ok _ =>
      match main_docs extract_info fetch split_text with
      | Raise e => (removed, Raise e)
      | Ok all_docs =>
          match all_docs with
          | [] => (removed, Ok tt)
          | _ :: _ =>
              let '(calls, r) := create_and_load_embeddings all_docs CHROMA_DB_PATH in
              ((removed ++ calls)%list, r)
          end
      end
  end.

End Collaborators.

End LoadToChromaScript.

(** ** app.py: the script *)

Module AppScript.
Import Py App.

(** What the user did since the last run: the text of the key field, the
    button clicked, the question submitted. *)
Record inputs := Inputs {
  google_api_key : string;
  configure_clicked : bool;
  reset_clicked : bool;
  clear_clicked : bool;
  chat_input : option string
}.

(** The items of the page.  [shown u] is an item of the chat area as in
    [App.ui]; a call with a plain label keeps its text, and each call whose
    label holds a pictograph has a constructor: the page configuration, the
    title, the sidebar header, "API key configured successfully!" after
    loading, "API Key Configured", the hint to configure a key, the "Chat"
    heading, and the "Video Moment" line of a source in the history. *)
Inductive item :=
| shown (u : ui)
| page_config
| title
| sidebar_header
| text_input_key
| button (label : string)
| spinner_loading
| success_now
| success_configured
| info_configure
| chat_header
| chat_input_box
| video_moment (link : string).

(** How a run of the script ends: at its last line or at the [return] of
    line 107, by [st.rerun()], or by an exception no one caught. *)
Inductive outcome :=
| Finished
| Rerun
| Raised (e : exn).

(** The session, the environment variable GOOGLE_API_KEY, and the page
    drawn so far. *)
Record page := Page {
  state : session_state;
  GOOGLE_API_KEY : option string;
  out : list item
}.

Definition emits (its : list item) (p : page) : page :=
  Page (state p) (GOOGLE_API_KEY p) (out p ++ its)%list.

Definition set_state (s : session_state) (p : page) : page :=
  Page s (GOOGLE_API_KEY p) (out p).

(** The truth value of a [str]: it is not empty. *)
Definition truthy_str (s : string) : bool := negb (s =? "")%string.

(** One message of the history, lines 114-121. *)
Definition show_message (message : Message.t) : list item :=
  ([shown (chat_message (Message.role message));
    shown (write (Message.content message))]
   ++ (if (Message.role message =? "assistant")%string
       then match Message.sources message with
            | Some sources =>
                shown expander_sources
                :: flat_map
                     (fun source =>
                        [video_moment (Source.link source);
                         shown (markdown (excerpt_line source));
                         shown (markdown "---")])
                     sources
            | None => []
            end
       else []))%list.

Definition show_history (messages : list Message.t) : list item :=
  flat_map show_message messages.

Section Collaborators.

(** The embedding model, the vector store, the chat model and the
    retrieval chain made of them; building any of them may raise. *)
Variable build_chain : string -> result chain.

Definition load_components (api_key : string) (p : page) : option chain * page :=
  let p := Page (state p) (Some api_key) (out p) in
  match build_chain api_key with
  | Ok qa_chain => (Some qa_chain, p)
  | Raise e =>
      (None,
       emits [shown (error ("Failed to load components: " ++ exn_str e))] p)
  end.

(** The sidebar, lines 61-102: [None] when the script goes on, the way the
    run ends otherwise. *)
Definition sidebar (i : inputs) (p : page) : option outcome * page :=
  let p := emits [sidebar_header] p in
  let '(stop, p) :=
    if negb (api_key_configured (state p)) then
      let p := emits [shown (markdown "**Step 1:** Enter your Google AI API Key");
                      text_input_key; button "Configure API Key"] p in
      if configure_clicked i then
        if truthy_str (google_api_key i) then
          let p := emits [spinner_loading] p in
          let '(qa_chain, p) := load_components (google_api_key i) p in
          match qa_chain with
          | Some c =>
              let p := set_state (SessionState (messages (state p)) true (Some c)) p in
              (Some Rerun, emits [success_now] p)
          | None =>
              (None,
               emits [shown (error "Failed to configure API key. Please check your key and try again.")] p)
          end
        else (None, emits [shown (error "Please enter a valid API key.")] p)
      else (None, p)
    else
      let p := emits [success_configured;
                      shown (markdown "**Step 2:** You can now close this sidebar and start chatting!");
                      button "Reset API Key"] p in
      if reset_clicked i
      then (Some Rerun, set_state (SessionState [] false None) p)
      else (None, p) in
  match stop with
  | Some o => (Some o, p)
  | None =>
      let p := emits [shown (markdown "---"); shown (markdown "### About");
                      shown (markdown "This app searches through Fireship's YouTube transcripts to answer your questions about programming concepts, tools, and technologies.")] p in
      match messages (state p) with
      | [] => (None, p)
      | _ :: _ =>
          let p := emits [button "Clear Chat History"] p in
          if clear_clicked i
          then (Some Rerun,
                set_state (SessionState [] (api_key_configured (state p))
                                        (qa_chain (state p))) p)
          else (None, p)
      end
  end.

(** The chat-input branch, run on the session of the page; what it shows
    is added to the page. *)
Definition answer (prompt : string) (p : page) : outcome * page :=
  let '(r, w) := on_chat_input prompt (World (state p) []) in
  let p := emits (map shown (screen w)) (set_state (session w) p) in
  match r with
  | Ok _ => (Finished, p)
  | Raise e => (Raised e, p)
  end.

(** One run of the script from a session and an environment; the page is
    drawn anew. *)
Definition main (i : inputs) (s : session_state) (env : option string)
  : outcome * page :=
  let p := Page s env [] in
  let p := emits [page_config; title;
                  shown (markdown "Ask questions about Fireship's '100 Seconds of Code' videos and get answers powered by Google Gemini!")] p in
  match sidebar i p with
  | (Some o, p) => (o, p)
  | (None, p) =>
      if negb (api_key_configured (state p))
      then (Finished, emits [info_configure] p)
      else
        let p := emits [chat_header] p in
        let p := emits (show_history (messages (state p))) p in
        let p := emits [chat_input_box] p in
        match chat_input i with
        | Some prompt =>
            if truthy_str prompt then answer prompt p else (Finished, p)
        | None => (Finished, p)
        end
  end.

(** The session at the start, lines 14-19. *)
Definition initial_session : session_state := SessionState [] false None.

(** The session and the environment after a sequence of runs. *)
Fixpoint runs (steps : list inputs) (s : session_state) (env : option string)
  : session_state * option string :=
  match steps with
  | [] => (s, env)
  | i :: rest =>
      let p := snd (main i s env) in
      runs rest (state p) (GOOGLE_API_KEY p)
  end.

End Collaborators.

End AppScript.

(** ** Vocabulary of the properties *)

Module Spec.
Import Py.

(** The text [sub] stands in [s] at offset [p]. *)
Definition occurs_at (s sub : string) (p : Z) : Prop :=
  0 <= p /\ substring (Z.to_nat p) (String.length sub) s = sub.

(** Every snippet's text followed by one space, in order. *)
Fixpoint joined (snippets : list Snippet.t) : string :=
  match snippets with
  | [] => ""
  | s :: rest => Snippet.text s ++ " " ++ joined rest
  end.

(** The entry [(k, v)] has the greatest key of the map that is [<= p]. *)
Definition greatest_key_le (timestamp_map : dict Py.float) (p k : Z)
  (v : Py.float) : Prop :=
  In (k, v) (items timestamp_map) /\ k <= p /\
  forall k' v', In (k', v') (items timestamp_map) -> k' <= p -> k' <= k.

(** The time of the entry with the greatest key [<= p], or [0] when the
    map has no key [<= p]. *)
Definition predecessor_time (timestamp_map : dict Py.float) (p : Z)
  (t : Py.num) : Prop :=
  (exists k v, greatest_key_le timestamp_map p k v /\ t = Float v)
  \/ ((forall k' v', In (k', v') (items timestamp_map) -> p < k') /\ t = Int 0).

(** The value of a finite number. *)
Definition num_value (t : Py.num) : option Q :=
  match t with
  | Int z => Some (inject_Z z)
  | Float (Finite q) => Some q
  | Float _ => None
  end.

(** The records of one video: one per chunk, carrying the video's URL. *)
Definition records_of (video_url : string) (chunks : list Chunk.t)
  : list Document.t :=
  map (fun chunk =>
         Document.Make (Chunk.text chunk) video_url (Chunk.start_time chunk))
      chunks.

(** The entries the builder records from position [pos] on. *)
Fixpoint entries_from (pos : Z) (snippets : list Snippet.t)
  : list (Z * Py.float) :=
  match snippets with
  | [] => []
  | s :: rest =>
      (pos, Snippet.start s)
      :: entries_from (pos + len (Snippet.text s ++ " ")) rest
  end.

(** The cursor the locator's loop ends with. *)
Fixpoint final_cursor (full_transcript : string) (text_chunks : list string)
  (search_start : Z) : Z :=
  match text_chunks with
  | [] => search_start
  | chunk_text :: rest =>
      final_cursor full_transcript rest
        (LoadToChroma.resolve_offset full_transcript chunk_text search_start
         + len chunk_text)
  end.

(** What holds of a single placement: the cursor is not negative, the
    resolved offset is not before it, the cursor moves to the resolved
    offset plus the length of the text, and the text was placed at its
    first occurrence from the cursor on, or at the cursor when [find]
    reported none. *)
Definition well_placed (full_transcript : string) (p : LoadToChroma.placement)
  : Prop :=
  let before := LoadToChroma.search_start_before p in
  let offset := LoadToChroma.resolved_offset p in
  let text := LoadToChroma.placed_text p in
  0 <= before
  /\ before <= offset
  /\ LoadToChroma.search_start_after p = offset + len text
  /\ before <= LoadToChroma.search_start_after p
  /\ ((occurs_at full_transcript text offset
       /\ forall q, before <= q < offset -> ~ occurs_at full_transcript text q)
      \/ (find full_transcript text before = -1 /\ offset = before)).

(** The URLs of a playlist listing, in the listing's order. *)
Fixpoint listed_urls (entries : list LoadToChroma.entry) : list string :=
  match entries with
  | [] => []
  | video :: rest =>
      match LoadToChroma.entry_url video with
      | Some url => url :: listed_urls rest
      | None => listed_urls rest
      end
  end.

(** The records a video contributes: those of its chunks when the body
    of the [try] block runs through, none when it raises. *)
Definition contribution
  (fetch : string -> list string -> result (list Snippet.t))
  (split_text : Z -> Z -> list string -> string -> result (list string))
  (video_url : string) : list Document.t :=
  match LoadToChroma.chunks_body fetch split_text video_url
          LoadToChroma.CHUNK_SIZE LoadToChroma.CHUNK_OVERLAP with
  | Ok chunks => records_of video_url chunks
  | Raise _ => []
  end.

(** The world when the [try] block of the chat-input branch starts: the
    question has been appended to the history and shown. *)
Definition asked (prompt : string) (w : App.world) : App.world :=
  let s := App.session w in
  App.World
    (App.SessionState
       (App.messages s ++ [Message.Make "user" prompt None])%list
       (App.api_key_configured s) (App.qa_chain s))
    (App.screen w ++ [App.chat_message "user"; App.write prompt;
                      App.chat_message "assistant"; App.spinner])%list.

(** The character [c] occurs in [s]. *)
Definition has_char (c : ascii) (s : string) : Prop :=
  In c (list_ascii_of_string s).

(** The texts one after the other. *)
Fixpoint glued (texts : list string) : string :=
  match texts with
  | [] => ""
  | t :: rest => t ++ glued rest
  end.

(** The offsets at which texts laid end to end from [pos] begin. *)
Fixpoint offsets_from (pos : Z) (texts : list string) : list Z :=
  match texts with
  | [] => []
  | t :: rest => pos :: offsets_from (pos + len t) rest
  end.

(** A text that neither starts nor ends with a whitespace character. *)
Definition trimmed (s : string) : Prop :=
  forall c,
    get 0 s = Some c \/ get (String.length s - 1) s = Some c ->
    isspace c = false.

(** The order of start times: both finite, the first not after the
    second. *)
Definition float_le (a b : Py.float) : Prop :=
  match a, b with
  | Finite x, Finite y => (x <= y)%Q
  | _, _ => False
  end.

(** The same time, or an earlier one. *)
Definition time_le (a b : Py.num) : Prop :=
  a = b
  \/ match a, b with
     | Float x, Float y => float_le x y
     | _, _ => False
     end.

(** What holds of the session between runs of the script: with a key
    configured there is a chain; without one there is none and the history
    is empty. *)
Definition session_ok (s : App.session_state) : Prop :=
  (App.api_key_configured s = true -> exists c, App.qa_chain s = Some c)
  /\ (App.api_key_configured s = false ->
      App.qa_chain s = None /\ App.messages s = []).

(** The link and the content of a source are those of its document. *)
Definition made_from (doc : Document.t) (source : Source.t) : Prop :=
  App.format_timestamp_link (Document.video_url doc) (Document.start_time doc)
  = Ok (Source.link source)
  /\ Source.content source = Document.page_content doc.

(** The whole seconds of a finite start time: its floor. *)
Definition floor_seconds (t : Py.num) : Z :=
  match num_value t with
  | Some q => Qfloor q
  | None => 0
  end.

(** The citation of a record: the link made of the record's URL, ["&t="],
    the floor of its start time and ["s"], with the record's content. *)
Definition citation (doc : Document.t) : Source.t :=
  Source.Make
    (Document.video_url doc ++ "&t="
     ++ str_of_int (floor_seconds (Document.start_time doc)) ++ "s")
    (Document.page_content doc).

End Spec.

(* ================================================================== *)
(** * Part II: properties                                              *)
(* ================================================================== *)

(** ** Strings and [find] *)

Section StringFacts.
Import Py Spec.

Lemma length_append (a b : string) :
  String.length (a ++ b) = (String.length a + String.length b)%nat.
Proof. induction a as [|c a IH]; simpl; [reflexivity | now rewrite IH]. Qed.

Lemma len_append (a b : string) : len (a ++ b) = len a + len b.
Proof. unfold len. rewrite length_append. lia. Qed.

Lemma len_nonneg (s : string) : 0 <= len s.
Proof. unfold len. lia. Qed.

Lemma append_assoc (a b c : string) : (a ++ b) ++ c = a ++ (b ++ c).
Proof. induction a as [|x a IH]; simpl; [reflexivity | now rewrite IH]. Qed.

Lemma append_empty_r (a : string) : a ++ "" = a.
Proof. induction a as [|x a IH]; simpl; [reflexivity | now rewrite IH]. Qed.

Lemma substring_prefix (b c : string) :
  substring 0 (String.length b) (b ++ c) = b.
Proof.
  induction b as [|x b IH]; simpl.
  - destruct c; reflexivity.
  - now rewrite IH.
Qed.

(** The text [b] stands at offset [length a] of [a ++ b ++ c]. *)
Lemma substring_middle (a b c : string) :
  substring (String.length a) (String.length b) (a ++ b ++ c) = b.
Proof.
  induction a as [|x a IH]; simpl.
  - apply substring_prefix.
  - exact IH.
Qed.

(** [index] never reports a position before the one it starts from. *)
Lemma index_lower_bound (s1 s2 : string) :
  forall n m, index n s1 s2 = Some m -> (n <= m)%nat.
Proof.
  induction s2 as [|b s2 IH]; intros n m H; simpl in H.
  - destruct n; [lia | discriminate].
  - destruct n as [|n].
    + lia.
    + destruct (index n s1 s2) as [k|] eqn:E; [|discriminate].
      injection H as <-. apply IH in E. lia.
Qed.

(** What [find] returns: [-1], or a position at or after [start] (after
    [0] when [start] is negative) where [sub] stands in [s] and before
    which, from [start] on, it does not. *)
Lemma find_range (s sub : string) (start : Z) :
  find s sub start = -1 \/ (0 <= find s sub start /\ start <= find s sub start).
Proof.
  unfold find.
  destruct (index _ sub s) as [p|] eqn:E; [right | now left].
  apply index_lower_bound in E.
  destruct (start <? 0) eqn:Hs; [apply Z.ltb_lt in Hs | apply Z.ltb_ge in Hs]; lia.
Qed.

Lemma find_occurs (s sub : string) (start : Z) :
  find s sub start <> -1 -> occurs_at s sub (find s sub start).
Proof.
  unfold find, occurs_at.
  destruct (index _ sub s) as [p|] eqn:E; [intros _ | congruence].
  apply index_correct1 in E. rewrite Nat2Z.id. split; [lia | exact E].
Qed.

Lemma find_first (s sub : string) (start q : Z) :
  0 <= start -> find s sub start <> -1 ->
  start <= q < find s sub start -> ~ occurs_at s sub q.
Proof.
  unfold find, occurs_at. intros H0.
  replace (start <? 0) with false by (symmetry; apply Z.ltb_ge; lia).
  destruct (index _ sub s) as [p|] eqn:E; [intros _ | congruence].
  intros Hq [_ Hocc].
  apply (index_correct2 _ _ _ _ E (Z.to_nat q)); [lia | lia | exact Hocc].
Qed.

Lemma find_absent (s sub : string) (start q : Z) :
  0 <= start -> sub <> "" -> find s sub start = -1 ->
  start <= q -> ~ occurs_at s sub q.
Proof.
  unfold find, occurs_at. intros H0 Hne.
  replace (start <? 0) with false by (symmetry; apply Z.ltb_ge; lia).
  destruct (index _ sub s) as [p|] eqn:E; [lia | intros _].
  intros Hq [_ Hocc].
  apply (index_correct3 _ (Z.to_nat q) _ _ E Hne); [lia | exact Hocc].
Qed.

End StringFacts.

(** ** The timestamp map builder *)

Section TimestampMapBuilder.
Import Py Spec LoadToChroma.

(** Assigning to a key beyond every key present appends the entry. *)
Lemma dict_set_fresh {V} (d : dict V) (k : Z) (v : V) :
  (forall k' v', In (k', v') d -> k' < k) ->
  dict_set d k v = (d ++ [(k, v)])%list.
Proof.
  induction d as [|[k0 v0] d IH]; intros Hlt; simpl; [reflexivity|].
  assert (k0 < k) by (apply (Hlt k0 v0); now left).
  replace (k0 =? k) with false by (symmetry; apply Z.eqb_neq; lia).
  rewrite IH; [reflexivity|]. intros k' v' Hin. apply (Hlt k' v'). now right.
Qed.

Lemma entries_from_keys_ge (snippets : list Snippet.t) :
  forall pos k v, In (k, v) (entries_from pos snippets) -> pos <= k.
Proof.
  induction snippets as [|s rest IH]; intros pos k v Hin; simpl in Hin.
  - contradiction.
  - destruct Hin as [Heq | Hin].
    + injection Heq as <- _. lia.
    + apply IH in Hin. pose proof (len_nonneg (Snippet.text s ++ " ")). lia.
Qed.

Lemma text_to_add_positive (s : Snippet.t) : 0 < len (Snippet.text s ++ " ").
Proof. rewrite len_append. pose proof (len_nonneg (Snippet.text s)). cbn. lia. Qed.

(** The loop, from any state it can be in: the keys so far are below the
    position, so each assignment appends. *)
Lemma build_steps (snippets : list Snippet.t) :
  forall full_transcript timestamp_map current_pos,
    (forall k v, In (k, v) timestamp_map -> k < current_pos) ->
    fold_left build_step snippets (full_transcript, timestamp_map, current_pos)
    = (full_transcript ++ joined snippets,
       (timestamp_map ++ entries_from current_pos snippets)%list,
       current_pos + len (joined snippets)).
Proof.
  induction snippets as [|s rest IH]; intros buf m pos Hlt.
  - simpl. now rewrite append_empty_r, app_nil_r, Z.add_0_r.
  - change (fold_left build_step (s :: rest) (buf, m, pos))
      with (fold_left build_step rest (build_step (buf, m, pos) s)).
    unfold build_step at 2.
    rewrite (dict_set_fresh m pos _ Hlt).
    pose proof (text_to_add_positive s) as Hpos.
    rewrite IH.
    + change (joined (s :: rest)) with (Snippet.text s ++ (" " ++ joined rest)).
      f_equal; [f_equal|].
      * now rewrite !append_assoc.
      * now rewrite <- app_assoc.
      * rewrite <- (append_assoc (Snippet.text s)), (len_append (_ ++ " ")). lia.
    + intros k v Hin. apply in_app_or in Hin. destruct Hin as [Hin | [Heq | []]].
      * apply Hlt in Hin. lia.
      * injection Heq as <- _. lia.
Qed.

Lemma build_timestamp_map_eq (snippets : list Snippet.t) :
  build_timestamp_map snippets
  = (joined snippets, entries_from 0 snippets, len (joined snippets)).
Proof.
  unfold build_timestamp_map. rewrite build_steps; [reflexivity|].
  intros k v [].
Qed.

Lemma entries_from_sorted (snippets : list Snippet.t) :
  forall pos, StronglySorted Z.lt (map fst (entries_from pos snippets)).
Proof.
  induction snippets as [|s rest IH]; intros pos; simpl; constructor.
  - apply IH.
  - apply Forall_forall. intros k Hin.
    apply in_map_iff in Hin. destruct Hin as [[k' v] [<- Hin]].
    apply entries_from_keys_ge in Hin. pose proof (text_to_add_positive s).
    simpl. lia.
Qed.

Lemma entries_from_length (snippets : list Snippet.t) :
  forall pos, List.length (entries_from pos snippets) = List.length snippets.
Proof.
  induction snippets as [|s rest IH]; intros pos; simpl; [reflexivity|].
  now rewrite IH.
Qed.

Lemma entries_from_values (snippets : list Snippet.t) :
  forall pos k v,
    In (k, v) (entries_from pos snippets) ->
    exists s, In s snippets /\ v = Snippet.start s.
Proof.
  induction snippets as [|s rest IH]; intros pos k v Hin; [contradiction|].
  cbn [entries_from] in Hin. destruct Hin as [[= _ <-] | Hin].
  - exists s. split; [now left | reflexivity].
  - destruct (IH _ _ _ Hin) as (s' & Hs' & ->). exists s'. split; [now right | reflexivity].
Qed.

Lemma joined_cons (s : Snippet.t) (rest : list Snippet.t) :
  joined (s :: rest) = (Snippet.text s ++ " ") ++ joined rest.
Proof. now rewrite append_assoc. Qed.

Lemma entries_from_nth (snippets : list Snippet.t) :
  forall pos i s,
    nth_error snippets i = Some s ->
    nth_error (entries_from pos snippets) i
    = Some (pos + len (joined (firstn i snippets)), Snippet.start s).
Proof.
  induction snippets as [|s0 rest IH]; intros pos i s Hnth.
  - destruct i; discriminate.
  - destruct i as [|i]; cbn [nth_error entries_from firstn] in *.
    + injection Hnth as <-. cbn [joined len String.length]. now rewrite Z.add_0_r.
    + rewrite (IH _ _ _ Hnth), joined_cons, !len_append.
      do 2 f_equal. lia.
Qed.

Lemma joined_split (snippets : list Snippet.t) :
  forall i s,
    nth_error snippets i = Some s ->
    joined snippets
    = joined (firstn i snippets) ++ Snippet.text s
      ++ (" " ++ joined (skipn (S i) snippets)).
Proof.
  induction snippets as [|s0 rest IH]; intros i s Hnth.
  - destruct i; discriminate.
  - destruct i as [|i]; cbn [nth_error firstn skipn] in *.
    + now injection Hnth as <-.
    + rewrite !joined_cons, (IH _ _ Hnth) at 1. now rewrite !append_assoc.
Qed.

(** C2.  For every sequence of caption snippets (the non-empty ones in
    particular) the builder returns the buffer made of every snippet's
    text followed by one space, and a map with one entry per snippet, in
    order, whose keys are strictly increasing; the key of a snippet is the
    length of the buffer before it, the snippet's text stands in the
    buffer at that offset, and the value is the snippet's start time. *)
Theorem timestamp_map_builder_exact (snippets : list Snippet.t)
  (buffer : string) (timestamp_map : dict Py.float) (current_pos : Z) :
  build_timestamp_map snippets = (buffer, timestamp_map, current_pos) ->
  buffer = joined snippets
  /\ StronglySorted Z.lt (map fst (items timestamp_map))
  /\ List.length (items timestamp_map) = List.length snippets
  /\ forall i s,
       nth_error snippets i = Some s ->
       exists k,
         nth_error (items timestamp_map) i = Some (k, Snippet.start s)
         /\ k = len (joined (firstn i snippets))
         /\ occurs_at buffer (Snippet.text s) k.
Proof.
  rewrite build_timestamp_map_eq. intros [= <- <- <-].
  unfold items. repeat split.
  - apply entries_from_sorted.
  - apply entries_from_length.
  - intros i s Hnth. exists (len (joined (firstn i snippets))). split; [|split].
    + now rewrite (entries_from_nth _ _ _ _ Hnth), Z.add_0_l.
    + reflexivity.
    + split; [apply len_nonneg|].
      rewrite (joined_split _ _ _ Hnth) at 1.
      unfold len. rewrite Nat2Z.id. apply substring_middle.
Qed.

Lemma timestamp_map_builder_exact_witness :
  let snippets :=
    [Snippet.Make "Hello world." (Finite 0);
     Snippet.Make "This is Fireship." (Finite 3)] in
  "Hello world. This is Fireship. " = joined snippets
  /\ StronglySorted Z.lt (map fst (items [(0, Finite 0); (13, Finite 3)]))
  /\ List.length (items [(0, Finite 0); (13, Finite 3)]) = List.length snippets
  /\ forall i s,
       nth_error snippets i = Some s ->
       exists k,
         nth_error (items [(0, Finite 0); (13, Finite 3)]) i
         = Some (k, Snippet.start s)
         /\ k = len (joined (firstn i snippets))
         /\ occurs_at "Hello world. This is Fireship. " (Snippet.text s) k.
Proof.
  exact (timestamp_map_builder_exact
           [Snippet.Make "Hello world." (Finite 0);
            Snippet.Make "This is Fireship." (Finite 3)]
           "Hello world. This is Fireship. "
           [(0, Finite 0); (13, Finite 3)] 31 eq_refl).
Defined.

End TimestampMapBuilder.

(** ** The chunk locator *)

Section ChunkLocator.
Import Py Spec LoadToChroma.

Variable full_transcript : string.
Variable timestamp_map : dict Py.float.

(** The loop, from any state: it appends the chunk of each placement. *)
Lemma locate_steps (text_chunks : list string) :
  forall chunks search_start,
    fold_left (locate_step full_transcript timestamp_map) text_chunks
              (chunks, search_start)
    = ((chunks
        ++ map emitted
             (placements full_transcript timestamp_map text_chunks search_start))%list,
       final_cursor full_transcript text_chunks search_start).
Proof.
  induction text_chunks as [|c rest IH]; intros chunks search_start.
  - simpl. now rewrite app_nil_r.
  - cbn [fold_left locate_step placements map final_cursor].
    now rewrite IH, <- app_assoc.
Qed.

Lemma locate_chunks_placements (text_chunks : list string) :
  fst (locate_chunks full_transcript timestamp_map text_chunks)
  = map emitted (placements full_transcript timestamp_map text_chunks 0).
Proof. unfold locate_chunks. now rewrite locate_steps. Qed.

Lemma resolve_offset_cases (chunk_text : string) (search_start : Z) :
  (find full_transcript chunk_text search_start <> -1
   /\ resolve_offset full_transcript chunk_text search_start
      = find full_transcript chunk_text search_start)
  \/ (find full_transcript chunk_text search_start = -1
      /\ resolve_offset full_transcript chunk_text search_start = search_start).
Proof.
  unfold resolve_offset.
  destruct (find full_transcript chunk_text search_start =? -1) eqn:E.
  - right. apply Z.eqb_eq in E. now split.
  - left. apply Z.eqb_neq in E. now split.
Qed.

Lemma resolve_offset_ge (chunk_text : string) (search_start : Z) :
  search_start <= resolve_offset full_transcript chunk_text search_start.
Proof.
  destruct (resolve_offset_cases chunk_text search_start) as [[Hne ->] | [_ ->]];
    [|lia].
  destruct (find_range full_transcript chunk_text search_start); [contradiction | lia].
Qed.

Lemma placements_well_placed (text_chunks : list string) :
  forall search_start p,
    0 <= search_start ->
    In p (placements full_transcript timestamp_map text_chunks search_start) ->
    well_placed full_transcript p /\ search_start <= search_start_before p.
Proof.
  induction text_chunks as [|c rest IH]; intros ss p Hss Hin; [contradiction|].
  cbn [placements] in Hin.
  pose proof (resolve_offset_ge c ss) as Hge.
  pose proof (len_nonneg c) as Hlen.
  destruct Hin as [<- | Hin].
  - split; [|cbn; lia]. unfold well_placed. cbn.
    repeat split; try lia.
    destruct (resolve_offset_cases c ss) as [[Hne ->] | [Hm1 ->]].
    + left. split; [now apply find_occurs|].
      intros q Hq. now apply (find_first _ _ ss).
    + right. now split.
  - apply IH in Hin; [|lia]. destruct Hin as [Hw Hle]. split; [exact Hw | lia].
Qed.

Lemma placements_consecutive (text_chunks : list string) :
  forall search_start i p q,
    nth_error (placements full_transcript timestamp_map text_chunks search_start) i
    = Some p ->
    nth_error (placements full_transcript timestamp_map text_chunks search_start) (S i)
    = Some q ->
    search_start_before q = search_start_after p.
Proof.
  induction text_chunks as [|c rest IH]; intros ss i p q Hp Hq.
  - destruct i; discriminate.
  - destruct i as [|i]; cbn [placements nth_error] in Hp, Hq.
    + injection Hp as <-. cbn [search_start_after].
      destruct rest as [|c' rest']; [discriminate|].
      cbn [placements nth_error] in Hq. now injection Hq as <-.
    + exact (IH _ _ _ _ Hp Hq).
Qed.

Lemma placements_first (text_chunks : list string) (search_start : Z) (p : placement) :
  nth_error (placements full_transcript timestamp_map text_chunks search_start) 0
  = Some p ->
  search_start_before p = search_start.
Proof.
  destruct text_chunks; [discriminate|]. cbn. now intros [= <-].
Qed.

(** C1.  Whatever the buffer, the timestamp map and the chunk texts, the
    cursor [search_start] starts at 0 and never decreases from one chunk
    to the next, and each chunk's resolved offset is at least the previous
    chunk's.  Each chunk is placed at the first occurrence of its text at
    or after the cursor, or at the cursor itself when [find] reports none,
    and the cursor then moves to the resolved offset plus the length of
    the chunk text. *)
Theorem search_start_never_regresses (text_chunks : list string) :
  let ps := placements full_transcript timestamp_map text_chunks 0 in
  fst (locate_chunks full_transcript timestamp_map text_chunks) = map emitted ps
  /\ (forall p, nth_error ps 0 = Some p -> search_start_before p = 0)
  /\ (forall p, In p ps -> well_placed full_transcript p)
  /\ (forall i p q,
        nth_error ps i = Some p -> nth_error ps (S i) = Some q ->
        search_start_before q = search_start_after p
        /\ search_start_before p <= search_start_before q
        /\ resolved_offset p <= resolved_offset q).
Proof.
  intros ps. split; [apply locate_chunks_placements|].
  split; [intros p; apply placements_first|].
  assert (W : forall p, In p ps -> well_placed full_transcript p).
  { intros p Hin. now apply (placements_well_placed text_chunks 0 p). }
  split; [exact W|].
  intros i p q Hp Hq.
  pose proof (placements_consecutive _ _ _ _ _ Hp Hq) as Hc.
  apply nth_error_In in Hp, Hq. apply W in Hp, Hq.
  unfold well_placed in Hp, Hq. pose proof (len_nonneg (placed_text p)). lia.
Qed.

End ChunkLocator.

Lemma search_start_never_regresses_witness :
  let ps :=
    LoadToChroma.placements
      "Hello world. This is Fireship. Learn in 100 seconds. "
      [(0, Py.Finite 0); (13, Py.Finite 3); (31, Py.Finite 9)]
      ["Hello world. This is Fireship."; "Learn in 100 seconds."] 0 in
  exists p q,
    nth_error ps 0 = Some p /\ nth_error ps 1 = Some q
    /\ LoadToChroma.resolved_offset p = 0 /\ LoadToChroma.resolved_offset q = 31
    /\ LoadToChroma.search_start_before q = LoadToChroma.search_start_after p
    /\ LoadToChroma.search_start_before p <= LoadToChroma.search_start_before q
    /\ LoadToChroma.resolved_offset p <= LoadToChroma.resolved_offset q.
Proof.
  intros ps.
  destruct ps as [|p [|q ps']] eqn:E; [discriminate | discriminate |].
  exists p, q. split; [reflexivity|]. split; [reflexivity|].
  injection E as <- <- _.
  split; [reflexivity|]. split; [reflexivity|].
  exact (proj2 (proj2 (proj2
    (search_start_never_regresses
       "Hello world. This is Fireship. Learn in 100 seconds. "
       [(0, Py.Finite 0); (13, Py.Finite 3); (31, Py.Finite 9)]
       ["Hello world. This is Fireship."; "Learn in 100 seconds."]))) 0%nat _ _
    eq_refl eq_refl).
Defined.

(** ** The timestamp of a chunk *)

Section ChunkTimestamp.
Import Py Spec LoadToChroma.

(** On keys in strictly increasing order the scan ends on the entry with
    the greatest key [<= p], or keeps its initial value when every key
    is beyond [p]. *)
Lemma scan_items_sorted (its : list (Z * Py.float)) :
  forall p closest,
    StronglySorted Z.lt (map fst its) ->
    (exists k v,
        In (k, v) its /\ k <= p
        /\ (forall k' v', In (k', v') its -> k' <= p -> k' <= k)
        /\ scan_items its p closest = Float v)
    \/ ((forall k' v', In (k', v') its -> p < k')
        /\ scan_items its p closest = closest).
Proof.
  induction its as [|[k0 v0] rest IH]; intros p closest Hs.
  - right. split; [intros ? ? [] | reflexivity].
  - cbn [map fst] in Hs. apply StronglySorted_inv in Hs. destruct Hs as [Hs Hall].
    rewrite Forall_forall in Hall.
    assert (Hrest : forall k' v', In (k', v') rest -> k0 < k').
    { intros k' v' Hin. apply Hall. apply in_map_iff. now exists (k', v'). }
    cbn [scan_items]. destruct (k0 <=? p) eqn:E.
    + apply Z.leb_le in E. left.
      destruct (IH p (Float v0) Hs) as [(k & v & Hin & Hle & Hmax & Heq) | [Hnone Heq]].
      * exists k, v. repeat split; [now right | exact Hle | | exact Heq].
        intros k' v' [[= <- <-] | Hin'] Hle'.
        -- apply Hrest in Hin. lia.
        -- now apply (Hmax k' v').
      * exists k0, v0. repeat split; [now left | exact E | | exact Heq].
        intros k' v' [[= <- <-] | Hin'] Hle'; [lia|].
        apply Hnone in Hin'. lia.
    + apply Z.leb_gt in E. right. split; [|reflexivity].
      intros k' v' [[= <- <-] | Hin']; [lia|]. apply Hrest in Hin'. lia.
Qed.

Lemma closest_timestamp_sorted (timestamp_map : dict Py.float) (p : Z) :
  StronglySorted Z.lt (map fst (items timestamp_map)) ->
  predecessor_time timestamp_map p (closest_timestamp timestamp_map p).
Proof.
  intros Hs. unfold predecessor_time, greatest_key_le, closest_timestamp.
  destruct (scan_items_sorted (items timestamp_map) p (Int 0) Hs)
    as [(k & v & Hin & Hle & Hmax & Heq) | [Hnone Heq]].
  - left. exists k, v. now rewrite Heq.
  - right. now rewrite Heq.
Qed.

Lemma placements_emitted (full_transcript : string)
  (timestamp_map : dict Py.float) (text_chunks : list string) :
  forall search_start p,
    In p (placements full_transcript timestamp_map text_chunks search_start) ->
    resolved_offset p
    = resolve_offset full_transcript (placed_text p) (search_start_before p)
    /\ emitted p
       = Chunk.Make (strip (placed_text p))
                    (closest_timestamp timestamp_map (resolved_offset p)).
Proof.
  induction text_chunks as [|c rest IH]; intros ss p Hin; [contradiction|].
  cbn [placements] in Hin. destruct Hin as [<- | Hin]; [now split|].
  exact (IH _ _ Hin).
Qed.

End ChunkTimestamp.

(** ** What the locator emits *)

Section ChunkEmission.
Import Py Spec LoadToChroma.

Variable full_transcript : string.
Variable timestamp_map : dict Py.float.

(** A text that stands nowhere at or after [start] is not found. *)
Lemma find_fails_when_absent (sub : string) (start : Z) :
  (forall q, start <= q -> ~ occurs_at full_transcript sub q) ->
  find full_transcript sub start = -1.
Proof.
  intros Habs.
  destruct (Z.eq_dec (find full_transcript sub start) (-1)) as [E | E]; [exact E|].
  exfalso. apply (Habs (find full_transcript sub start)).
  - destruct (find_range full_transcript sub start); [contradiction | lia].
  - now apply find_occurs.
Qed.

Lemma placements_length (text_chunks : list string) :
  forall search_start,
    List.length (placements full_transcript timestamp_map text_chunks search_start)
    = List.length text_chunks.
Proof.
  induction text_chunks as [|c rest IH]; intros ss; [reflexivity|].
  cbn [placements List.length]. now rewrite IH.
Qed.

Lemma placements_texts (text_chunks : list string) :
  forall search_start,
    map placed_text (placements full_transcript timestamp_map text_chunks search_start)
    = text_chunks.
Proof.
  induction text_chunks as [|c rest IH]; intros ss; [reflexivity|].
  cbn [placements map placed_text]. now rewrite IH.
Qed.

(** C4.  When [find] reports no occurrence of a chunk's text at or after
    the cursor, the chunk's resolved offset is the cursor itself; the chunk
    is still emitted, with the timestamp resolved from that offset, and
    the locator emits as many chunks as it was given texts. *)
Theorem unfound_chunk_placed_at_cursor (text_chunks : list string) (p : placement) :
  In p (placements full_transcript timestamp_map text_chunks 0) ->
  find full_transcript (placed_text p) (search_start_before p) = -1 ->
  resolved_offset p = search_start_before p
  /\ emitted p
     = Chunk.Make (strip (placed_text p))
                  (closest_timestamp timestamp_map (search_start_before p))
  /\ In (emitted p) (fst (locate_chunks full_transcript timestamp_map text_chunks))
  /\ List.length (fst (locate_chunks full_transcript timestamp_map text_chunks))
     = List.length text_chunks.
Proof.
  intros Hin Hfind.
  destruct (placements_emitted _ _ _ _ _ Hin) as [Hoff Hem].
  assert (Hr : resolved_offset p = search_start_before p).
  { rewrite Hoff. unfold resolve_offset. now rewrite Hfind. }
  rewrite locate_chunks_placements, length_map, placements_length.
  repeat split.
  - exact Hr.
  - now rewrite Hem, Hr.
  - now apply in_map.
Qed.

(** The locator emits one chunk per text, in order, with the text
    trimmed; nothing is dropped. *)
Lemma locate_chunks_texts (text_chunks : list string) :
  map Chunk.text (fst (locate_chunks full_transcript timestamp_map text_chunks))
  = map strip text_chunks.
Proof.
  rewrite locate_chunks_placements, map_map.
  rewrite <- (placements_texts text_chunks 0) at 2. rewrite map_map.
  apply map_ext_in. intros p Hin.
  now destruct (placements_emitted _ _ _ _ _ Hin) as [_ ->].
Qed.

(** C5, as the program has it.  The locator emits exactly one chunk per
    chunk text, in order, whose text is the chunk text trimmed; so an
    emitted text is empty exactly when the chunk text it comes from is
    empty after trimming, and every emitted text is non-empty when the
    splitter hands over no such chunk text. *)
Theorem locator_emits_every_chunk_trimmed (text_chunks : list string) :
  map Chunk.text (fst (locate_chunks full_transcript timestamp_map text_chunks))
  = map strip text_chunks
  /\ List.length (fst (locate_chunks full_transcript timestamp_map text_chunks))
     = List.length text_chunks
  /\ ((forall chunk_text, In chunk_text text_chunks -> strip chunk_text <> "") <->
      (forall c,
          In c (fst (locate_chunks full_transcript timestamp_map text_chunks)) ->
          Chunk.text c <> "")).
Proof.
  pose proof (locate_chunks_texts text_chunks) as Ht.
  split; [exact Ht|]. split.
  - rewrite locate_chunks_placements, length_map. apply placements_length.
  - split.
    + intros Hne c Hin.
      apply (in_map Chunk.text) in Hin. rewrite Ht in Hin.
      apply in_map_iff in Hin. destruct Hin as (t & <- & Hin). now apply Hne.
    + intros Hne t Hin.
      apply (in_map strip) in Hin. rewrite <- Ht in Hin.
      apply in_map_iff in Hin. destruct Hin as (c & <- & Hin). now apply Hne.
Qed.

(** The scan only ever returns its initial [0] or a value of the map. *)
Lemma closest_timestamp_zero_or_stored (pos : Z) :
  closest_timestamp timestamp_map pos = Int 0
  \/ exists k v, In (k, v) (items timestamp_map)
                 /\ closest_timestamp timestamp_map pos = Float v.
Proof.
  unfold closest_timestamp.
  assert (G : forall its closest,
             (closest = Int 0 \/ exists k v, In (k, v) (items timestamp_map)
                                              /\ closest = Float v) ->
             (forall k v, In (k, v) its -> In (k, v) (items timestamp_map)) ->
             scan_items its pos closest = Int 0
             \/ exists k v, In (k, v) (items timestamp_map)
                            /\ scan_items its pos closest = Float v).
  { induction its as [|[k0 v0] rest IH]; intros closest Hc Hsub; [exact Hc|].
    cbn [scan_items]. destruct (k0 <=? pos); [|exact Hc].
    apply IH.
    - right. exists k0, v0. split; [apply Hsub; now left | reflexivity].
    - intros k v Hkv. apply Hsub. now right. }
  apply G; [now left | auto].
Qed.

Lemma located_start_time (text_chunks : list string) (c : Chunk.t) :
  In c (fst (locate_chunks full_transcript timestamp_map text_chunks)) ->
  exists pos, Chunk.start_time c = closest_timestamp timestamp_map pos.
Proof.
  rewrite locate_chunks_placements. intros Hin.
  apply in_map_iff in Hin. destruct Hin as (p & <- & Hin).
  destruct (placements_emitted _ _ _ _ _ Hin) as [_ ->]. now eexists.
Qed.

(** C10.  Whatever the map and the chunk texts, the [start_time] of an
    emitted chunk is the integer [0] or a value stored in the timestamp
    map, that is, the start time of a caption snippet. *)
Theorem start_time_is_zero_or_stored (text_chunks : list string) (c : Chunk.t) :
  In c (fst (locate_chunks full_transcript timestamp_map text_chunks)) ->
  Chunk.start_time c = Int 0
  \/ exists k v, In (k, v) (items timestamp_map) /\ Chunk.start_time c = Float v.
Proof.
  intros Hin. destruct (located_start_time _ _ Hin) as [pos ->].
  apply closest_timestamp_zero_or_stored.
Qed.

End ChunkEmission.

Lemma unfound_chunk_placed_at_cursor_witness :
  let p := LoadToChroma.Placement 5 "zzz" 5 (Chunk.Make "zzz" (Py.Float (Py.Finite 0))) 8 in
  LoadToChroma.resolved_offset p = LoadToChroma.search_start_before p
  /\ LoadToChroma.emitted p
     = Chunk.Make (Py.strip "zzz")
         (LoadToChroma.closest_timestamp [(0, Py.Finite 0); (6, Py.Finite 4)] 5)
  /\ In (LoadToChroma.emitted p)
        (fst (LoadToChroma.locate_chunks "Hello world " [(0, Py.Finite 0); (6, Py.Finite 4)]
                ["Hello"; "zzz"]))
  /\ List.length
       (fst (LoadToChroma.locate_chunks "Hello world " [(0, Py.Finite 0); (6, Py.Finite 4)]
               ["Hello"; "zzz"]))
     = 2%nat.
Proof.
  refine (unfound_chunk_placed_at_cursor
            "Hello world " [(0, Py.Finite 0); (6, Py.Finite 4)] ["Hello"; "zzz"]
            (LoadToChroma.Placement 5 "zzz" 5 (Chunk.Make "zzz" (Py.Float (Py.Finite 0))) 8)
            _ _).
  - right. left. reflexivity.
  - reflexivity.
Defined.

(** C5, as the claim has it, fails: given a chunk text of two spaces the
    locator emits a chunk whose text is empty, and the main loop makes a
    record of it. *)
Lemma whitespace_chunk_is_emitted :
  Py.strip "  " = ""
  /\ fst (LoadToChroma.locate_chunks "a  b " [(0, Py.Finite 0)] ["a"; "  "; "b"])
     = [Chunk.Make "a" (Py.Float (Py.Finite 0));
        Chunk.Make "" (Py.Float (Py.Finite 0));
        Chunk.Make "b" (Py.Float (Py.Finite 0))]
  /\ LoadToChroma.process_videos
       (fun _ _ => Py.Ok [Snippet.Make "a  b" (Py.Finite 0)])
       (fun _ _ _ _ => Py.Ok ["a"; "  "; "b"])
       ["https://www.youtube.com/watch?v=A"] []
     = Py.Ok [Document.Make "a" "https://www.youtube.com/watch?v=A" (Py.Float (Py.Finite 0));
              Document.Make "" "https://www.youtube.com/watch?v=A" (Py.Float (Py.Finite 0));
              Document.Make "b" "https://www.youtube.com/watch?v=A" (Py.Float (Py.Finite 0))]
  /\ ~ (forall full_transcript timestamp_map text_chunks c,
          In c (fst (LoadToChroma.locate_chunks full_transcript timestamp_map text_chunks)) ->
          Chunk.text c <> "").
Proof.
  split; [reflexivity|]. split; [reflexivity|]. split; [reflexivity|].
  intros H.
  apply (H "a  b " [(0, Py.Finite 0)] ["a"; "  "; "b"]
           (Chunk.Make "" (Py.Float (Py.Finite 0)))).
  - right. left. reflexivity.
  - reflexivity.
Qed.

Lemma start_time_is_zero_or_stored_witness :
  let c := Chunk.Make "world" (Py.Float (Py.Finite 4)) in
  Chunk.start_time c = Py.Int 0
  \/ exists k v,
       In (k, v) (Py.items [(0, Py.Finite 0); (6, Py.Finite 4)])
       /\ Chunk.start_time c = Py.Float v.
Proof.
  refine (start_time_is_zero_or_stored
            "Hello world " [(0, Py.Finite 0); (6, Py.Finite 4)] ["Hello"; "world"]
            (Chunk.Make "world" (Py.Float (Py.Finite 4))) _).
  right. left. reflexivity.
Defined.

(** ** Playlist enumeration *)

Section PlaylistEnumeration.
Import Py Spec LoadToChroma.

Variable extract_info : string -> result (list entry).

Lemma collect_urls_listed (entries : list entry) :
  collect_urls entries = listed_urls entries.
Proof.
  unfold collect_urls.
  assert (G : forall acc,
             fold_left
               (fun video_urls video =>
                  match entry_url video with
                  | Some url => (video_urls ++ [url])%list
                  | None => video_urls
                  end) entries acc
             = (acc ++ listed_urls entries)%list).
  { induction entries as [|video rest IH]; intros acc; cbn [fold_left listed_urls].
    - now rewrite app_nil_r.
    - rewrite IH. destruct (entry_url video); [now rewrite <- app_assoc | reflexivity]. }
  apply (G []).
Qed.

(** Without a maximum, or with the maximum [0], the test [if max_videos:]
    is false and the listing is returned whole. *)
Lemma get_video_urls_uncapped (playlist_url : string) (entries : list entry)
  (max_videos : option Z) :
  extract_info playlist_url = Ok entries ->
  max_videos = None \/ max_videos = Some 0 ->
  get_video_urls extract_info playlist_url max_videos = listed_urls entries.
Proof.
  intros He Hm. unfold get_video_urls. rewrite He, collect_urls_listed.
  now destruct Hm as [-> | ->].
Qed.

(** C7, as the program has it.  For every playlist and every positive
    maximum [n], [get_video_urls] returns at most [n] URLs: the first [n]
    URLs of the listing, in the listing's order, and none when the listing
    call raises. *)
Theorem get_video_urls_capped (playlist_url : string) (n : Z) :
  0 < n ->
  Z.of_nat (List.length (get_video_urls extract_info playlist_url (Some n))) <= n
  /\ match extract_info playlist_url with
     | Ok entries =>
         get_video_urls extract_info playlist_url (Some n)
         = firstn (Z.to_nat n) (listed_urls entries)
     | Raise _ => get_video_urls extract_info playlist_url (Some n) = []
     end.
Proof.
  intros Hn. unfold get_video_urls.
  destruct (extract_info playlist_url) as [entries | e]; [|cbn; split; [lia | reflexivity]].
  rewrite collect_urls_listed.
  cbn [truthy]. replace (n =? 0) with false by (symmetry; apply Z.eqb_neq; lia).
  cbn [negb]. unfold slice_to.
  replace (n <? 0) with false by (symmetry; apply Z.ltb_ge; lia).
  split; [|reflexivity]. rewrite length_firstn. lia.
Qed.

End PlaylistEnumeration.

Lemma get_video_urls_capped_witness :
  let extract_info := fun _ : string =>
    Py.Ok [LoadToChroma.EntryDict (Some "https://www.youtube.com/watch?v=a");
           LoadToChroma.EntryNone;
           LoadToChroma.EntryDict (Some "https://www.youtube.com/watch?v=b");
           LoadToChroma.EntryDict (Some "https://www.youtube.com/watch?v=c")] in
  Z.of_nat
    (List.length
       (LoadToChroma.get_video_urls extract_info LoadToChroma.PLAYLIST_URL (Some 2)))
  <= 2
  /\ LoadToChroma.get_video_urls extract_info LoadToChroma.PLAYLIST_URL (Some 2)
     = ["https://www.youtube.com/watch?v=a"; "https://www.youtube.com/watch?v=b"].
Proof.
  intros extract_info.
  exact (get_video_urls_capped extract_info LoadToChroma.PLAYLIST_URL 2 eq_refl).
Defined.

(** C7, as the claim has it, fails at the maximum 0: the test
    [if max_videos:] is false there, the cut is skipped, and a listing of
    two videos comes back whole. *)
Lemma get_video_urls_ignores_zero_maximum :
  let extract_info := fun _ : string =>
    Py.Ok [LoadToChroma.EntryDict (Some "https://www.youtube.com/watch?v=a");
           LoadToChroma.EntryDict (Some "https://www.youtube.com/watch?v=b")] in
  LoadToChroma.get_video_urls extract_info LoadToChroma.PLAYLIST_URL (Some 0)
  = ["https://www.youtube.com/watch?v=a"; "https://www.youtube.com/watch?v=b"]
  /\ ~ (Z.of_nat
          (List.length
             (LoadToChroma.get_video_urls extract_info LoadToChroma.PLAYLIST_URL (Some 0)))
        <= 0).
Proof. split; [reflexivity | cbn; lia]. Qed.

(** ** The indexing loop *)

Section IndexingLoop.
Import Py Spec LoadToChroma.

Variable fetch : string -> list string -> result (list Snippet.t).
Variable split_text : Z -> Z -> list string -> string -> result (list string).

Lemma create_chunks_never_raises (video_url : string) (chunk_size chunk_overlap : Z) :
  create_chunks_with_timestamps fetch split_text video_url chunk_size chunk_overlap
  = Ok match chunks_body fetch split_text video_url chunk_size chunk_overlap with
       | Ok chunks => chunks
       | Raise _ => []
       end.
Proof.
  unfold create_chunks_with_timestamps.
  destruct (chunks_body _ _ _ _ _) as [chunks | e]; [reflexivity|].
  now destruct (_ || _).
Qed.

Lemma fetch_failure_raises (video_url : string) (chunk_size chunk_overlap : Z) (e : exn) :
  fetch (video_id_of video_url) LANGUAGES = Raise e ->
  chunks_body fetch split_text video_url chunk_size chunk_overlap = Raise e.
Proof. intros H. unfold chunks_body. now rewrite H. Qed.

Lemma append_docs_records (video_url : string) (chunks : list Chunk.t) :
  forall all_docs,
    append_docs video_url all_docs chunks
    = (all_docs ++ records_of video_url chunks)%list.
Proof.
  unfold append_docs, records_of.
  induction chunks as [|c rest IH]; intros all_docs; cbn [fold_left map].
  - now rewrite app_nil_r.
  - now rewrite IH, <- app_assoc.
Qed.

Lemma process_videos_contributions (video_urls : list string) :
  forall all_docs,
    process_videos fetch split_text video_urls all_docs
    = Ok (all_docs ++ flat_map (contribution fetch split_text) video_urls)%list.
Proof.
  induction video_urls as [|u rest IH]; intros all_docs; cbn [process_videos flat_map].
  - now rewrite app_nil_r.
  - rewrite create_chunks_never_raises. cbn [bind].
    rewrite IH, append_docs_records, <- app_assoc. unfold contribution.
    now destruct (chunks_body _ _ _ _ _).
Qed.

(** When the fetch and the splitter both return, the chunks of a video
    are those the locator places in the buffer the builder made. *)
Lemma create_chunks_located (video_url : string) (chunk_size chunk_overlap : Z)
  (snippets : list Snippet.t) (text_chunks : list string) :
  fetch (video_id_of video_url) LANGUAGES = Ok snippets ->
  split_text chunk_size chunk_overlap SEPARATORS (joined snippets) = Ok text_chunks ->
  create_chunks_with_timestamps fetch split_text video_url chunk_size chunk_overlap
  = Ok (map emitted
          (placements (joined snippets) (entries_from 0 snippets) text_chunks 0)).
Proof.
  intros Hf Hs. rewrite create_chunks_never_raises. unfold chunks_body.
  rewrite Hf. cbn [bind]. rewrite build_timestamp_map_eq, Hs. cbn [bind].
  now rewrite locate_chunks_placements.
Qed.

(** The start time of a chunk of a video is the integer [0] or the start
    time of one of the video's caption snippets. *)
Lemma chunk_start_time_from_snippets (video_url : string)
  (chunk_size chunk_overlap : Z) (snippets : list Snippet.t)
  (chunks : list Chunk.t) (c : Chunk.t) :
  fetch (video_id_of video_url) LANGUAGES = Ok snippets ->
  create_chunks_with_timestamps fetch split_text video_url chunk_size chunk_overlap
  = Ok chunks ->
  In c chunks ->
  Chunk.start_time c = Int 0
  \/ exists s, In s snippets /\ Chunk.start_time c = Float (Snippet.start s).
Proof.
  intros Hf Hc Hin. rewrite create_chunks_never_raises in Hc. unfold chunks_body in Hc.
  rewrite Hf in Hc. cbn [bind] in Hc. rewrite build_timestamp_map_eq in Hc.
  destruct (split_text _ _ _ _) as [text_chunks | e]; cbn [bind] in Hc;
    injection Hc as <-; [|contradiction].
  destruct (located_start_time _ _ _ _ Hin) as [pos ->].
  destruct (closest_timestamp_zero_or_stored (entries_from 0 snippets) pos)
    as [H0 | (k & v & Hkv & Hv)]; [now left | right].
  destruct (entries_from_values _ _ _ _ Hkv) as (s & Hs & ->). now exists s.
Qed.

(** The main block raises nothing and hands over the contributions of the
    enumerated videos, in order. *)
Lemma main_docs_contributions (extract_info : string -> result (list entry)) :
  main_docs extract_info fetch split_text
  = Ok (flat_map (contribution fetch split_text)
          (get_video_urls extract_info PLAYLIST_URL (Some MAX_VIDEOS_TO_PROCESS))).
Proof. unfold main_docs. now rewrite process_videos_contributions. Qed.

(** C6.  When the transcript fetch of a video raises, whatever the
    exception, [create_chunks_with_timestamps] returns the empty list for
    that video and raises nothing; the loop over the batch runs to its
    end, and its records are those of the videos before followed by those
    of the videos after, each video contributing the records of its own
    chunks and a failed video none. *)
Theorem failed_video_is_skipped (before after : list string) (video_url : string)
  (e : exn) :
  fetch (video_id_of video_url) LANGUAGES = Raise e ->
  create_chunks_with_timestamps fetch split_text video_url CHUNK_SIZE CHUNK_OVERLAP
  = Ok []
  /\ process_videos fetch split_text (before ++ video_url :: after) []
     = Ok (flat_map (contribution fetch split_text) before ++ flat_map (contribution fetch split_text) after)%list
  /\ process_videos fetch split_text before [] = Ok (flat_map (contribution fetch split_text) before)
  /\ process_videos fetch split_text after [] = Ok (flat_map (contribution fetch split_text) after)
  /\ (forall video_urls,
        process_videos fetch split_text video_urls []
        = Ok (flat_map (contribution fetch split_text) video_urls)).
Proof.
  intros Hf.
  pose proof (fetch_failure_raises video_url CHUNK_SIZE CHUNK_OVERLAP e Hf) as Hb.
  assert (Hc : contribution fetch split_text video_url = []) by (unfold contribution; now rewrite Hb).
  split; [now rewrite create_chunks_never_raises, Hb|].
  rewrite !process_videos_contributions. cbn [app].
  rewrite flat_map_app. cbn [flat_map]. rewrite Hc. cbn [app].
  repeat split. intros video_urls. now rewrite process_videos_contributions.
Qed.

End IndexingLoop.

Lemma failed_video_is_skipped_witness :
  let fetch := fun (video_id : string) (_ : list string) =>
    if (video_id =? "B")%string
    then Py.Raise (Py.Exn "TranscriptsDisabled" "Subtitles are disabled for this video")
    else Py.Ok [Snippet.Make video_id (Py.Finite 0)] in
  let split_text := fun (_ _ : Z) (_ : list string) (text : string) => Py.Ok [text] in
  LoadToChroma.create_chunks_with_timestamps fetch split_text
    "https://www.youtube.com/watch?v=B" LoadToChroma.CHUNK_SIZE LoadToChroma.CHUNK_OVERLAP
  = Py.Ok []
  /\ LoadToChroma.process_videos fetch split_text
       ["https://www.youtube.com/watch?v=A"; "https://www.youtube.com/watch?v=B";
        "https://www.youtube.com/watch?v=C"] []
     = Py.Ok [Document.Make "A" "https://www.youtube.com/watch?v=A" (Py.Float (Py.Finite 0));
              Document.Make "C" "https://www.youtube.com/watch?v=C" (Py.Float (Py.Finite 0))].
Proof.
  intros fetch split_text.
  pose proof (failed_video_is_skipped fetch split_text
                ["https://www.youtube.com/watch?v=A"]
                ["https://www.youtube.com/watch?v=C"]
                "https://www.youtube.com/watch?v=B"
                (Py.Exn "TranscriptsDisabled" "Subtitles are disabled for this video")
                eq_refl) as T.
  exact (conj (proj1 T) (proj1 (proj2 T))).
Defined.

(** ** The chunks the locator returns, one by one *)

Section LocatedChunks.
Import Py Spec LoadToChroma.

Variable full_transcript : string.
Variable timestamp_map : dict Py.float.

(** The cursor the loop has reached is the second component of what
    [locate_chunks] returns. *)
Lemma locate_chunks_cursor (text_chunks : list string) :
  snd (locate_chunks full_transcript timestamp_map text_chunks)
  = final_cursor full_transcript text_chunks 0.
Proof. unfold locate_chunks. now rewrite locate_steps. Qed.

Lemma placements_nth (text_chunks : list string) :
  forall search_start i t,
    nth_error text_chunks i = Some t ->
    let cursor := final_cursor full_transcript (firstn i text_chunks) search_start in
    let offset := resolve_offset full_transcript t cursor in
    nth_error (placements full_transcript timestamp_map text_chunks search_start) i
    = Some (Placement cursor t offset
              (Chunk.Make (strip t) (closest_timestamp timestamp_map offset))
              (offset + len t)).
Proof.
  induction text_chunks as [|c rest IH]; intros ss i t Hnth.
  - destruct i; discriminate.
  - destruct i as [|i]; cbn [nth_error firstn final_cursor placements] in *.
    + now injection Hnth as <-.
    + exact (IH _ _ _ Hnth).
Qed.

(** The chunk returned for the [i]-th chunk text: its text is the chunk
    text trimmed, and its start time is looked up at the offset resolved
    from the cursor the loop had reached after the first [i] texts. *)
Lemma located_chunk_at (text_chunks : list string) (i : nat) (t : string)
  (chunk : Chunk.t) :
  nth_error text_chunks i = Some t ->
  nth_error (fst (locate_chunks full_transcript timestamp_map text_chunks)) i
  = Some chunk ->
  chunk
  = Chunk.Make (strip t)
      (closest_timestamp timestamp_map
         (resolve_offset full_transcript t
            (snd (locate_chunks full_transcript timestamp_map (firstn i text_chunks))))).
Proof.
  intros Ht Hc. rewrite locate_chunks_placements, nth_error_map in Hc.
  rewrite (placements_nth _ 0 _ _ Ht) in Hc. cbn in Hc. injection Hc as <-.
  now rewrite locate_chunks_cursor.
Qed.

Lemma located_chunk_exists (text_chunks : list string) (i : nat) (chunk : Chunk.t) :
  nth_error (fst (locate_chunks full_transcript timestamp_map text_chunks)) i
  = Some chunk ->
  exists t, nth_error text_chunks i = Some t.
Proof.
  intros Hc. destruct (nth_error text_chunks i) as [t|] eqn:E; [now exists t|].
  apply nth_error_None in E.
  assert (Hlen : List.length (fst (locate_chunks full_transcript timestamp_map text_chunks))
                 = List.length text_chunks).
  { rewrite locate_chunks_placements, length_map. apply placements_length. }
  assert (Hsome : nth_error (fst (locate_chunks full_transcript timestamp_map text_chunks)) i
                  <> None) by (rewrite Hc; discriminate).
  apply nth_error_Some in Hsome. lia.
Qed.

(** The cursor is never negative. *)
Lemma locate_chunks_cursor_nonneg (text_chunks : list string) :
  0 <= snd (locate_chunks full_transcript timestamp_map text_chunks).
Proof.
  rewrite locate_chunks_cursor.
  assert (G : forall l ss, 0 <= ss -> 0 <= final_cursor full_transcript l ss).
  { induction l as [|c rest IH]; intros ss Hss; [exact Hss|].
    cbn [final_cursor]. apply IH.
    pose proof (resolve_offset_ge full_transcript c ss). pose proof (len_nonneg c). lia. }
  now apply G.
Qed.

End LocatedChunks.

(** ** The timestamp of a chunk, on the program *)

Section ChunkTimestampOnProgram.
Import Py Spec LoadToChroma.

(** C3.  The chunks [create_chunks_with_timestamps] returns are those the
    locator makes on the buffer and the map of the builder.  For the
    [i]-th of them, with resolved offset [p] (the position [find] reports
    for its text from the cursor reached after the first [i] texts, or
    that cursor), the [start_time] is the value of the map entry with the
    greatest key that is [<= p], and [0] when no key is (an empty map
    included).  For snippets starting at 0, 5, 12 and 30 seconds, a chunk
    whose resolved offset lies from the offset of the third snippet up to,
    not including, the offset of the fourth gets [start_time] 12. *)
Theorem start_time_is_greatest_key_le :
  (forall fetch split_text video_url chunk_size chunk_overlap
          snippets buffer timestamp_map current_pos text_chunks,
      fetch (video_id_of video_url) LANGUAGES = Ok snippets ->
      build_timestamp_map snippets = (buffer, timestamp_map, current_pos) ->
      split_text chunk_size chunk_overlap SEPARATORS buffer = Ok text_chunks ->
      create_chunks_with_timestamps fetch split_text video_url chunk_size chunk_overlap
      = Ok (fst (locate_chunks buffer timestamp_map text_chunks)))
  /\ (forall snippets buffer timestamp_map current_pos text_chunks i t chunk,
        build_timestamp_map snippets = (buffer, timestamp_map, current_pos) ->
        nth_error text_chunks i = Some t ->
        nth_error (fst (locate_chunks buffer timestamp_map text_chunks)) i = Some chunk ->
        let p := resolve_offset buffer t
                   (snd (locate_chunks buffer timestamp_map (firstn i text_chunks))) in
        predecessor_time timestamp_map p (Chunk.start_time chunk)
        /\ exists pl,
             nth_error (placements buffer timestamp_map text_chunks 0) i = Some pl
             /\ emitted pl = chunk /\ resolved_offset pl = p)
  /\ (forall buffer (text_chunks : list string) chunk,
        In chunk (fst (locate_chunks buffer [] text_chunks)) ->
        Chunk.start_time chunk = Int 0)
  /\ (forall t0 t1 t2 t3 buffer timestamp_map current_pos text_chunks i t chunk,
        build_timestamp_map
          [Snippet.Make t0 (Finite 0); Snippet.Make t1 (Finite 5);
           Snippet.Make t2 (Finite 12); Snippet.Make t3 (Finite 30)]
        = (buffer, timestamp_map, current_pos) ->
        nth_error text_chunks i = Some t ->
        nth_error (fst (locate_chunks buffer timestamp_map text_chunks)) i = Some chunk ->
        len (t0 ++ " " ++ t1 ++ " ")
        <= resolve_offset buffer t
             (snd (locate_chunks buffer timestamp_map (firstn i text_chunks)))
        < len (t0 ++ " " ++ t1 ++ " " ++ t2 ++ " ") ->
        Chunk.start_time chunk = Float (Finite 12)).
Proof.
  split; [|split; [|split]].
  - intros fetch split_text video_url chunk_size chunk_overlap
           snippets buffer tm pos text_chunks Hf Hb Hs.
    rewrite create_chunks_never_raises. unfold chunks_body.
    rewrite Hf. cbn [bind]. rewrite Hb, Hs. reflexivity.
  - intros snippets buffer tm pos text_chunks i t chunk Hb Ht Hc p.
    rewrite build_timestamp_map_eq in Hb. injection Hb as <- <- <-.
    pose proof (located_chunk_at _ _ _ _ _ _ Ht Hc) as ->. cbn [Chunk.start_time].
    split.
    + apply closest_timestamp_sorted. apply entries_from_sorted.
    + eexists. split; [apply (placements_nth _ _ _ 0 _ _ Ht)|].
      cbn. subst p. rewrite !locate_chunks_cursor. now split.
  - intros buffer text_chunks chunk Hin.
    now destruct (located_start_time buffer [] text_chunks chunk Hin) as [pos ->].
  - intros t0 t1 t2 t3 buffer tm pos text_chunks i t chunk Hb Ht Hc Hoff.
    rewrite build_timestamp_map_eq in Hb. injection Hb as <- <- <-.
    pose proof (located_chunk_at _ _ _ _ _ _ Ht Hc) as ->.
    set (p := resolve_offset _ t _) in *.
    cbn [Chunk.start_time entries_from Snippet.text Snippet.start].
    rewrite <- !append_assoc in Hoff. rewrite !len_append in Hoff.
    pose proof (len_nonneg t0). pose proof (len_nonneg t1).
    pose proof (len_nonneg t2). pose proof (len_nonneg t3).
    change (len " ") with 1 in Hoff.
    unfold closest_timestamp, items. cbn [scan_items].
    rewrite !len_append. change (len " ") with 1.
    repeat match goal with
           | |- context [?a <=? ?b] =>
               let E := fresh "E" in
               destruct (a <=? b) eqn:E;
               [apply Z.leb_le in E | apply Z.leb_gt in E]; try lia
           end.
    reflexivity.
Qed.

Lemma start_time_is_greatest_key_le_witness :
  let snippets :=
    [Snippet.Make "zero" (Finite 0); Snippet.Make "five" (Finite 5);
     Snippet.Make "twelve" (Finite 12); Snippet.Make "thirty" (Finite 30)] in
  let buffer := "zero five twelve thirty " in
  let timestamp_map :=
    [(0, Finite 0); (5, Finite 5); (10, Finite 12); (17, Finite 30)] in
  let chunk := Chunk.Make "twelve" (Float (Finite 12)) in
  create_chunks_with_timestamps
    (fun _ _ => Ok snippets) (fun _ _ _ _ => Ok ["zero five"; "twelve"])
    "https://www.youtube.com/watch?v=abc" 10 0
  = Ok (fst (locate_chunks buffer timestamp_map ["zero five"; "twelve"]))
  /\ nth_error (fst (locate_chunks buffer timestamp_map ["zero five"; "twelve"])) 1
     = Some chunk
  /\ predecessor_time timestamp_map 10 (Chunk.start_time chunk)
  /\ Chunk.start_time chunk = Float (Finite 12).
Proof.
  intros snippets buffer timestamp_map chunk.
  assert (Hb : build_timestamp_map snippets = (buffer, timestamp_map, 24))
    by reflexivity.
  split; [|split; [reflexivity | split]].
  - exact (proj1 start_time_is_greatest_key_le
             (fun _ _ => Ok snippets) (fun _ _ _ _ => Ok ["zero five"; "twelve"])
             "https://www.youtube.com/watch?v=abc" 10 0
             snippets buffer timestamp_map 24 ["zero five"; "twelve"]
             eq_refl Hb eq_refl).
  - exact (proj1 (proj1 (proj2 start_time_is_greatest_key_le)
                    snippets buffer timestamp_map 24 ["zero five"; "twelve"]
                    1%nat "twelve" chunk Hb eq_refl eq_refl)).
  - refine (proj2 (proj2 (proj2 start_time_is_greatest_key_le))
              "zero" "five" "twelve" "thirty" buffer timestamp_map 24
              ["zero five"; "twelve"] 1%nat "twelve" chunk Hb eq_refl eq_refl _).
    split; vm_compute; congruence.
Defined.

End ChunkTimestampOnProgram.

(** ** The citation link and the excerpt *)

Section Citation.
Import Py Spec App.

(** [int()] of a finite number that is not negative is its floor. *)
Lemma int_is_floor (t : num) (q : Q) :
  num_value t = Some q -> (0 <= q)%Q -> int t = Ok (Qfloor q).
Proof.
  destruct t as [z | [x | neg | ]]; cbn [num_value int]; intros [= <-] Hq.
  - now rewrite Qfloor_Z.
  - destruct x as [n d]. unfold Qle in Hq. cbn in Hq |- *.
    rewrite Z.quot_div_nonneg; [reflexivity | lia | lia].
Qed.

(** [s[:n]] is the first [n] characters of [s], all of [s] when it is
    shorter. *)
Lemma str_slice_to_prefix (s : string) :
  forall n,
    (exists rest, s = str_slice_to s n ++ rest)
    /\ String.length (str_slice_to s n) = Nat.min n (String.length s).
Proof.
  unfold str_slice_to.
  induction s as [|c s IH]; intros n.
  - destruct n; cbn; (split; [now exists "" | reflexivity]).
  - destruct n as [|n]; cbn [substring String.length Nat.min].
    + split; [now exists (String c s) | reflexivity].
    + destruct (IH n) as [[rest Hrest] Hlen]. split.
      * exists rest. cbn [append]. now rewrite <- Hrest.
      * now rewrite Hlen.
Qed.

End Citation.

(** ** The chat session *)

Section ChatSession.
Import Py Spec App.

Lemma show_all_appends (us : list ui) :
  forall w, show_all us w = (Ok tt, World (session w) (screen w ++ us)%list).
Proof.
  induction us as [|u rest IH]; intros w; cbn [show_all].
  - unfold ret. rewrite app_nil_r. now destruct w.
  - unfold abind, show. rewrite IH. cbn [session screen]. now rewrite <- app_assoc.
Qed.

(** The body of the [try] block touches the history only with its last
    step: when it raises, the history is as it was. *)
Lemma answer_body_raise_keeps_messages (prompt : string) (w : world) (e : exn) :
  fst (answer_body prompt w) = Raise e ->
  session (snd (answer_body prompt w)) = session w.
Proof.
  unfold answer_body, abind, call_qa_chain, lift, show, append_message.
  destruct (qa_chain (session w)) as [c|]; [|reflexivity].
  destruct (c prompt) as [response | e0]; [|reflexivity].
  cbn [session screen].
  destruct (prepare_sources _ _) as [sources | e1]; [|reflexivity].
  destruct sources as [|src rest].
  - unfold ret. cbn. discriminate.
  - rewrite show_all_appends. cbn. discriminate.
Qed.

Lemma on_chat_input_asked (prompt : string) (w : world) :
  on_chat_input prompt w
  = try_except (answer_body prompt) answer_failed (asked prompt w).
Proof.
  unfold on_chat_input, abind, append_message. now rewrite show_all_appends.
Qed.

(** Whatever happens to a question, the handler raises nothing and the
    history grows by exactly the user's question and one assistant
    message. *)
Lemma on_chat_input_appends_two (prompt : string) (w : world) :
  fst (on_chat_input prompt w) = Ok tt
  /\ exists reply,
       Message.role reply = "assistant"
       /\ messages (session (snd (on_chat_input prompt w)))
          = (messages (session w) ++ [Message.Make "user" prompt None; reply])%list.
Proof.
  rewrite on_chat_input_asked. unfold try_except.
  pose proof (answer_body_raise_keeps_messages prompt (asked prompt w)) as Hkeep.
  destruct (answer_body prompt (asked prompt w)) as [[[] | e] w2] eqn:E.
  - split; [reflexivity|]. cbn [fst snd]. clear Hkeep.
    unfold answer_body, abind, call_qa_chain, lift, show, append_message in E.
    destruct (qa_chain (session (asked prompt w))) as [c|]; [|discriminate].
    destruct (c prompt) as [response | e0]; [|discriminate].
    cbn [session screen] in E.
    destruct (prepare_sources _ _) as [sources | e1]; [|discriminate].
    exists (Message.Make "assistant" (Response.result response) (Some sources)).
    split; [reflexivity|].
    destruct sources as [|src rest].
    + unfold ret in E. cbn in E. injection E as <-. cbn. now rewrite <- app_assoc.
    + rewrite show_all_appends in E. cbn in E. injection E as <-. cbn.
      now rewrite <- app_assoc.
  - specialize (Hkeep e eq_refl). cbn [snd] in Hkeep.
    unfold answer_failed, abind, show, append_message. cbn [fst snd session screen].
    split; [reflexivity|].
    exists (Message.Make "assistant" (error_message e) None).
    split; [reflexivity|]. rewrite Hkeep. cbn. now rewrite <- app_assoc.
Qed.

(** C9.  When the chain raises on a question, the handler itself raises
    nothing; the page shows the error message; the chat history is the
    history before the question followed by the user's question and an
    assistant message holding the error text; the rest of the session
    (the configured flag and the chain) is as before, so the next
    question can be asked. *)
Theorem failed_question_keeps_history (w : world) (prompt : string)
  (c : chain) (e : exn) :
  qa_chain (session w) = Some c ->
  c prompt = Raise e ->
  fst (on_chat_input prompt w) = Ok tt
  /\ messages (session (snd (on_chat_input prompt w)))
     = (messages (session w)
        ++ [Message.Make "user" prompt None;
            Message.Make "assistant" (error_message e) None])%list
  /\ screen (snd (on_chat_input prompt w))
     = (screen w
        ++ [chat_message "user"; write prompt; chat_message "assistant"; spinner;
            error (error_message e)])%list
  /\ api_key_configured (session (snd (on_chat_input prompt w)))
     = api_key_configured (session w)
  /\ qa_chain (session (snd (on_chat_input prompt w))) = qa_chain (session w).
Proof.
  intros Hc He.
  unfold on_chat_input, try_except, answer_body, answer_failed, call_qa_chain,
    abind, show_all, show, append_message, ret.
  cbn. rewrite Hc, He. cbn.
  rewrite <- !app_assoc. cbn. repeat split; assumption || reflexivity.
Qed.

Lemma failed_question_keeps_history_witness :
  let failing : chain := fun _ => Raise (Exn "RuntimeError" "quota exceeded") in
  let earlier := [Message.Make "user" "What is Rust?" None;
                  Message.Make "assistant" "A systems language." (Some [])] in
  let w := World (SessionState earlier true (Some failing)) [] in
  fst (on_chat_input "What is Go?" w) = Ok tt
  /\ messages (session (snd (on_chat_input "What is Go?" w)))
     = [Message.Make "user" "What is Rust?" None;
        Message.Make "assistant" "A systems language." (Some []);
        Message.Make "user" "What is Go?" None;
        Message.Make "assistant" "Sorry, I encountered an error: quota exceeded" None].
Proof.
  intros failing earlier w.
  pose proof (failed_question_keeps_history w "What is Go?" failing
                (Exn "RuntimeError" "quota exceeded") eq_refl eq_refl) as T.
  exact (conj (proj1 T) (proj1 (proj2 T))).
Defined.

End ChatSession.

(* ================================================================== *)
(** * Part III: further properties of the programs                     *)
(* ================================================================== *)

(** ** Video identifiers and playlist listings *)

Section VideoIds.
Import Py Spec LoadToChroma.

Lemma split_nonempty (sep : ascii) (s : string) : split sep s <> [].
Proof.
  induction s as [|c s IH]; cbn [split]; [discriminate|].
  destruct (Ascii.eqb c sep); [discriminate|].
  destruct (split sep s); [contradiction | discriminate].
Qed.

Lemma split_without_separator (sep : ascii) (s : string) :
  ~ has_char sep s -> split sep s = [s].
Proof.
  unfold has_char. induction s as [|c s IH]; intros Hno; cbn [split]; [reflexivity|].
  cbn [list_ascii_of_string] in Hno.
  destruct (Ascii.eqb c sep) eqn:E.
  - apply Ascii.eqb_eq in E. exfalso. apply Hno. now left.
  - rewrite IH; [reflexivity|]. intros H. apply Hno. now right.
Qed.

(** The fields of [a ++ sep ++ b] are fields of [a] followed by those of
    [b]. *)
Lemma split_append (sep : ascii) (a b : string) :
  exists l, l <> [] /\ split sep (a ++ String sep b) = (l ++ split sep b)%list.
Proof.
  induction a as [|c a (l & Hl & IH)]; cbn [append split].
  - rewrite Ascii.eqb_refl. exists [""]. split; [discriminate | reflexivity].
  - destruct (Ascii.eqb c sep).
    + exists ("" :: l). split; [discriminate|]. now rewrite IH.
    + rewrite IH. destruct l as [|h t]; [contradiction|].
      exists (String c h :: t). split; [discriminate | reflexivity].
Qed.

Lemma last_append_nonempty {A} (l m : list A) (d : A) :
  m <> [] -> last (l ++ m) d = last m d.
Proof.
  intros Hm. induction l as [|x l IH]; [reflexivity|].
  cbn [app last]. destruct (l ++ m)%list eqn:E; [|exact IH].
  apply app_eq_nil in E. now destruct E.
Qed.

(** The identifier taken from a URL is the text after its last ["="]:
    for [base=ID] with no ["="] in [ID] it is [ID]; a URL without any
    ["="] is taken whole. *)
Theorem video_id_is_text_after_last_equals (base id : string) :
  ~ has_char "="%char id ->
  video_id_of (base ++ "=" ++ id) = id /\ video_id_of id = id.
Proof.
  intros Hno. unfold video_id_of. split.
  - change (base ++ "=" ++ id) with (base ++ String "="%char id).
    destruct (split_append "="%char base id) as (l & _ & ->).
    rewrite last_append_nonempty by apply split_nonempty.
    now rewrite split_without_separator.
  - now rewrite split_without_separator.
Qed.

Lemma video_id_is_text_after_last_equals_witness :
  video_id_of "https://www.youtube.com/watch?v=dQw4w9WgXcQ" = "dQw4w9WgXcQ"
  /\ video_id_of "dQw4w9WgXcQ" = "dQw4w9WgXcQ".
Proof.
  refine (video_id_is_text_after_last_equals
            "https://www.youtube.com/watch?v" "dQw4w9WgXcQ" _).
  unfold has_char. cbn. intros H.
  repeat (destruct H as [H | H]; [discriminate H|]). exact H.
Defined.

End VideoIds.

Section PlaylistEdges.
Import Py Spec LoadToChroma.

Variable extract_info : string -> result (list entry).

(** What [get_video_urls] returns besides the capped case: nothing when
    the listing raises, whatever the maximum; the whole listing without a
    maximum; and with a negative maximum [n] the listing without its last
    [-n] URLs. *)
Theorem get_video_urls_outside_the_cap (playlist_url : string) (max_videos : option Z) :
  match extract_info playlist_url with
  | Raise _ => get_video_urls extract_info playlist_url max_videos = []
  | Ok entries =>
      match max_videos with
      | None => get_video_urls extract_info playlist_url max_videos = listed_urls entries
      | Some n =>
          n < 0 ->
          exists dropped,
            listed_urls entries
            = (get_video_urls extract_info playlist_url max_videos ++ dropped)%list
            /\ List.length dropped
               = Nat.min (Z.to_nat (- n)) (List.length (listed_urls entries))
      end
  end.
Proof.
  unfold get_video_urls.
  destruct (extract_info playlist_url) as [entries | e]; [|reflexivity].
  rewrite collect_urls_listed.
  destruct max_videos as [n|]; [|reflexivity].
  intros Hn. cbn [truthy].
  replace (n =? 0) with false by (symmetry; apply Z.eqb_neq; lia).
  cbn [negb]. unfold slice_to.
  replace (n <? 0) with true by (symmetry; apply Z.ltb_lt; lia).
  set (l := listed_urls entries).
  set (k := Z.to_nat (Z.of_nat (List.length l) + n)).
  exists (skipn k l). split; [now rewrite firstn_skipn|].
  rewrite length_skipn. subst k. lia.
Qed.

End PlaylistEdges.

(** ** The builder's positions *)

Section BuilderPositions.
Import Py Spec LoadToChroma.

Lemma entries_from_keys_lt (snippets : list Snippet.t) :
  forall pos k v,
    In (k, v) (entries_from pos snippets) -> pos <= k < pos + len (joined snippets).
Proof.
  induction snippets as [|s rest IH]; intros pos k v Hin; [contradiction|].
  cbn [entries_from] in Hin. rewrite joined_cons, len_append.
  pose proof (text_to_add_positive s) as Hpos.
  pose proof (len_nonneg (joined rest)) as Hrest.
  destruct Hin as [[= <- _] | Hin]; [lia|].
  apply IH in Hin. lia.
Qed.

Lemma entries_from_values_in_order (snippets : list Snippet.t) :
  forall pos, map snd (entries_from pos snippets) = map Snippet.start snippets.
Proof.
  induction snippets as [|s rest IH]; intros pos; [reflexivity|].
  cbn [entries_from map snd]. now rewrite IH.
Qed.

(** The builder ends with [current_pos] equal to the length of the buffer,
    every key of the map is an index into the buffer, and a non-empty
    transcript gives a map whose first key is 0. *)
Theorem builder_keys_index_the_buffer (snippets : list Snippet.t)
  (buffer : string) (timestamp_map : dict Py.float) (current_pos : Z) :
  build_timestamp_map snippets = (buffer, timestamp_map, current_pos) ->
  current_pos = len buffer
  /\ (forall k v, In (k, v) (items timestamp_map) -> 0 <= k < len buffer)
  /\ (forall s rest, snippets = s :: rest ->
                     hd_error (items timestamp_map) = Some (0, Snippet.start s))
  /\ (snippets = [] -> buffer = "" /\ items timestamp_map = []).
Proof.
  rewrite build_timestamp_map_eq. intros [= <- <- <-]. unfold items.
  split; [reflexivity|]. split; [|split].
  - intros k v Hin. apply entries_from_keys_lt in Hin. lia.
  - now intros s rest ->.
  - now intros ->.
Qed.

Lemma builder_keys_index_the_buffer_witness :
  31 = len "Hello world. This is Fireship. "
  /\ (forall k v,
        In (k, v) (items [(0, Finite 0); (13, Finite 3)]) ->
        0 <= k < len "Hello world. This is Fireship. ").
Proof.
  pose proof (builder_keys_index_the_buffer
                [Snippet.Make "Hello world." (Finite 0);
                 Snippet.Make "This is Fireship." (Finite 3)]
                "Hello world. This is Fireship. "
                [(0, Finite 0); (13, Finite 3)] 31 eq_refl) as T.
  exact (conj (proj1 T) (proj1 (proj2 T))).
Defined.

End BuilderPositions.

(** ** Chunks that tile the buffer *)

Section Tiling.
Import Py Spec LoadToChroma.

Variable timestamp_map : dict Py.float.

(** A text is found where it stands when the search starts there. *)
Lemma index_at_occurrence (a sub c : string) :
  index (String.length a) sub (a ++ sub ++ c) = Some (String.length a).
Proof.
  induction a as [|x a IH].
  - cbn [String.length append].
    assert (Hp : prefix sub (sub ++ c) = true)
      by (apply prefix_correct, substring_prefix).
    destruct (sub ++ c) as [|b s2] eqn:E.
    + destruct sub; [reflexivity | discriminate].
    + cbn [index]. now rewrite Hp.
  - cbn [String.length append index]. now rewrite IH.
Qed.

Lemma find_at_occurrence (a sub c : string) :
  find (a ++ sub ++ c) sub (len a) = len a.
Proof.
  unfold find. pose proof (len_nonneg a) as Ha.
  replace (len a <? 0) with false by (symmetry; apply Z.ltb_ge; lia).
  unfold len at 1. rewrite Nat2Z.id, index_at_occurrence. reflexivity.
Qed.

Lemma placements_of_tiling (text_chunks : list string) (rest : string) :
  forall pre,
    let buffer := pre ++ glued text_chunks ++ rest in
    map resolved_offset (placements buffer timestamp_map text_chunks (len pre))
    = offsets_from (len pre) text_chunks
    /\ forall p,
         In p (placements buffer timestamp_map text_chunks (len pre)) ->
         find buffer (placed_text p) (search_start_before p) = resolved_offset p.
Proof.
  induction text_chunks as [|c cs IH]; intros pre buffer.
  - split; [reflexivity | intros p []].
  - assert (Hb : buffer = pre ++ c ++ (glued cs ++ rest)).
    { subst buffer. cbn [glued]. now rewrite append_assoc. }
    assert (Hf : find buffer c (len pre) = len pre)
      by (rewrite Hb; apply find_at_occurrence).
    assert (Hr : resolve_offset buffer c (len pre) = len pre).
    { unfold resolve_offset. rewrite Hf. pose proof (len_nonneg pre).
      now replace (len pre =? -1) with false by (symmetry; apply Z.eqb_neq; lia). }
    cbn [placements map resolved_offset offsets_from]. rewrite Hr.
    rewrite <- len_append.
    assert (Hb' : buffer = (pre ++ c) ++ glued cs ++ rest).
    { rewrite Hb. now rewrite append_assoc. }
    destruct (IH (pre ++ c)) as [IHo IHf]. rewrite <- Hb' in IHo, IHf.
    split.
    + now rewrite IHo.
    + intros p [<- | Hin]; [exact Hf | now apply IHf].
Qed.

Lemma glued_app (a b : list string) : glued (a ++ b) = glued a ++ glued b.
Proof.
  induction a as [|t a IH]; cbn [app glued]; [reflexivity|].
  now rewrite IH, append_assoc.
Qed.

Lemma final_cursor_of_tiling (text_chunks : list string) (rest : string) :
  forall pre,
    final_cursor (pre ++ glued text_chunks ++ rest) text_chunks (len pre)
    = len pre + len (glued text_chunks).
Proof.
  induction text_chunks as [|c cs IH]; intros pre.
  - cbn. lia.
  - cbn [final_cursor glued].
    assert (Hb : pre ++ (c ++ glued cs) ++ rest = pre ++ c ++ (glued cs ++ rest))
      by now rewrite (append_assoc c).
    assert (Hr : resolve_offset (pre ++ (c ++ glued cs) ++ rest) c (len pre) = len pre).
    { unfold resolve_offset. rewrite Hb, find_at_occurrence. pose proof (len_nonneg pre).
      now replace (len pre =? -1) with false by (symmetry; apply Z.eqb_neq; lia). }
    rewrite Hr, <- len_append.
    replace (pre ++ (c ++ glued cs) ++ rest) with ((pre ++ c) ++ glued cs ++ rest)
      by (rewrite Hb; now rewrite append_assoc).
    rewrite IH, !len_append. lia.
Qed.

Lemma emitted_by_offsets (full_transcript : string) (text_chunks : list string) :
  forall search_start,
    map emitted (placements full_transcript timestamp_map text_chunks search_start)
    = map (fun to => Chunk.Make (strip (fst to))
                       (closest_timestamp timestamp_map (snd to)))
          (combine text_chunks
             (map resolved_offset
                (placements full_transcript timestamp_map text_chunks search_start))).
Proof.
  induction text_chunks as [|c cs IH]; intros ss; [reflexivity|].
  cbn [placements map combine emitted resolved_offset fst snd]. now rewrite <- IH.
Qed.

(** When the chunk texts laid end to end are the beginning of the buffer
    (a splitter without overlap that cuts the buffer as it is), the loop
    finds every chunk at the cursor, which is the offset where the chunk
    really starts: [locate_chunks] returns each text trimmed with the time
    looked up at that offset, and ends with the cursor at the total length;
    the fallback is never used. *)
Theorem tiling_chunks_resolve_exactly (text_chunks : list string) (rest : string) :
  let buffer := glued text_chunks ++ rest in
  let ps := placements buffer timestamp_map text_chunks 0 in
  fst (locate_chunks buffer timestamp_map text_chunks)
  = map (fun to => Chunk.Make (strip (fst to))
                     (closest_timestamp timestamp_map (snd to)))
        (combine text_chunks (offsets_from 0 text_chunks))
  /\ snd (locate_chunks buffer timestamp_map text_chunks) = len (glued text_chunks)
  /\ (forall i t,
        nth_error text_chunks i = Some t ->
        let cursor :=
          snd (locate_chunks buffer timestamp_map (firstn i text_chunks)) in
        cursor = len (glued (firstn i text_chunks))
        /\ find buffer t cursor = cursor
        /\ resolve_offset buffer t cursor = cursor)
  /\ fst (locate_chunks buffer timestamp_map text_chunks) = map emitted ps
  /\ map resolved_offset ps = offsets_from 0 text_chunks
  /\ forall p,
       In p ps ->
       find buffer (placed_text p) (search_start_before p) = resolved_offset p
       /\ find buffer (placed_text p) (search_start_before p) <> -1.
Proof.
  intros buffer ps.
  destruct (placements_of_tiling text_chunks rest "") as [Ho Hf].
  assert (Ho' : map resolved_offset ps = offsets_from 0 text_chunks) by exact Ho.
  assert (Hf' : forall p, In p ps ->
                  find buffer (placed_text p) (search_start_before p)
                  = resolved_offset p) by exact Hf.
  split; [|split; [|split; [|split; [|split]]]].
  - rewrite locate_chunks_placements. fold ps. unfold ps.
    rewrite emitted_by_offsets. fold ps. now rewrite Ho'.
  - rewrite locate_chunks_cursor.
    exact (final_cursor_of_tiling text_chunks rest "").
  - intros i t Hnth cursor.
    assert (Hsplit : text_chunks = (firstn i text_chunks ++ t :: skipn (S i) text_chunks)%list).
    { clear - Hnth. revert i Hnth.
      induction text_chunks as [|c cs IH]; intros i Hnth; [destruct i; discriminate|].
      destruct i as [|i]; cbn [nth_error firstn skipn app] in *.
      - now injection Hnth as <-.
      - f_equal. now apply IH. }
    assert (Hbuf : buffer
                   = glued (firstn i text_chunks)
                     ++ t ++ (glued (skipn (S i) text_chunks) ++ rest)).
    { subst buffer. rewrite Hsplit at 1. rewrite glued_app. cbn [glued].
      now rewrite !append_assoc. }
    assert (Hcur : cursor = len (glued (firstn i text_chunks))).
    { subst cursor. rewrite locate_chunks_cursor.
      replace buffer
        with ("" ++ glued (firstn i text_chunks)
                 ++ (t ++ glued (skipn (S i) text_chunks) ++ rest))
        by (rewrite Hbuf; reflexivity).
      rewrite (final_cursor_of_tiling (firstn i text_chunks) _ ""). cbn. lia. }
    assert (Hfind : find buffer t cursor = cursor)
      by (rewrite Hcur, Hbuf; apply find_at_occurrence).
    split; [exact Hcur|]. split; [exact Hfind|].
    unfold resolve_offset. rewrite Hfind.
    pose proof (len_nonneg (glued (firstn i text_chunks))).
    now replace (cursor =? -1) with false by (symmetry; apply Z.eqb_neq; lia).
  - apply locate_chunks_placements.
  - exact Ho'.
  - intros p Hin. split; [now apply Hf'|].
    rewrite (Hf' p Hin).
    pose proof (placements_well_placed _ _ _ _ _ (Z.le_refl 0) Hin) as [Hw _].
    unfold well_placed in Hw. lia.
Qed.

End Tiling.

(** ** Timestamps along the chunks *)

Section TimestampOrder.
Import Py Spec LoadToChroma.

Lemma entries_from_values_ordered (snippets : list Snippet.t) :
  StronglySorted float_le (map Snippet.start snippets) ->
  forall pos k v k' v',
    In (k, v) (entries_from pos snippets) ->
    In (k', v') (entries_from pos snippets) ->
    k <= k' -> v = v' \/ float_le v v'.
Proof.
  induction snippets as [|s rest IH]; intros Hs pos k v k' v' Hin Hin' Hle;
    [contradiction|].
  cbn [map] in Hs. apply StronglySorted_inv in Hs. destruct Hs as [Hs Hall].
  rewrite Forall_forall in Hall.
  pose proof (text_to_add_positive s) as Hpos.
  cbn [entries_from] in Hin, Hin'.
  destruct Hin as [[= <- <-] | Hin]; destruct Hin' as [[= <- <-] | Hin'].
  - now left.
  - right. apply Hall. rewrite <- (entries_from_values_in_order rest
                                     (pos + len (Snippet.text s ++ " "))).
    apply in_map_iff. now exists (k', v').
  - apply entries_from_keys_ge in Hin. lia.
  - exact (IH Hs _ _ _ _ _ Hin Hin' Hle).
Qed.

Lemma placements_times_ordered (snippets : list Snippet.t)
  (text_chunks : list string) (i : nat) (p q : placement) :
  StronglySorted float_le (map Snippet.start snippets) ->
  nth_error
    (placements (joined snippets) (entries_from 0 snippets) text_chunks 0) i = Some p ->
  nth_error
    (placements (joined snippets) (entries_from 0 snippets) text_chunks 0) (S i) = Some q ->
  time_le (Chunk.start_time (emitted p)) (Chunk.start_time (emitted q)).
Proof.
  intros Hs Hp Hq.
  pose proof (placements_consecutive _ _ _ _ _ _ _ Hp Hq) as Hc.
  apply nth_error_In in Hp, Hq.
  pose proof (placements_well_placed _ _ _ _ _ (Z.le_refl 0) Hp) as [Hwp _].
  pose proof (placements_well_placed _ _ _ _ _ (Z.le_refl 0) Hq) as [Hwq _].
  assert (Hoff : 0 <= resolved_offset p <= resolved_offset q).
  { unfold well_placed in Hwp, Hwq. pose proof (len_nonneg (placed_text p)). lia. }
  destruct (placements_emitted _ _ _ _ _ Hp) as [_ ->].
  destruct (placements_emitted _ _ _ _ _ Hq) as [_ ->].
  cbn [Chunk.start_time].
  pose proof (entries_from_sorted snippets 0) as Hsorted.
  destruct (closest_timestamp_sorted (entries_from 0 snippets) (resolved_offset p) Hsorted)
    as [(k & v & (Hin & Hle & Hmax) & ->) | [Hnone ->]];
  destruct (closest_timestamp_sorted (entries_from 0 snippets) (resolved_offset q) Hsorted)
    as [(k' & v' & (Hin' & Hle' & Hmax') & ->) | [Hnone' ->]].
  - unfold items in *.
    assert (Hkk : k <= k') by (apply (Hmax' k v Hin); lia).
    destruct (entries_from_values_ordered snippets Hs 0 k v k' v' Hin Hin' Hkk)
      as [-> | Hvv]; [now left | now right].
  - apply Hnone' in Hin. lia.
  - exfalso. unfold items in *. destruct snippets as [|s rest]; [contradiction|].
    assert (H0 : resolved_offset p < 0)
      by (apply (Hnone 0 (Snippet.start s)); now left).
    lia.
  - now left.
Qed.

(** With the buffer and the map the builder makes, when the captions'
    start times are finite and in non-decreasing order, the start times of
    the chunks [locate_chunks] returns never go back: each chunk's is the
    same as, or later than, that of the chunk before. *)
Theorem chunk_start_times_never_go_back (snippets : list Snippet.t)
  (buffer : string) (timestamp_map : dict Py.float) (current_pos : Z)
  (text_chunks : list string) (i : nat) (c1 c2 : Chunk.t) :
  StronglySorted float_le (map Snippet.start snippets) ->
  build_timestamp_map snippets = (buffer, timestamp_map, current_pos) ->
  nth_error (fst (locate_chunks buffer timestamp_map text_chunks)) i = Some c1 ->
  nth_error (fst (locate_chunks buffer timestamp_map text_chunks)) (S i) = Some c2 ->
  time_le (Chunk.start_time c1) (Chunk.start_time c2).
Proof.
  intros Hs Hb H1 H2.
  rewrite build_timestamp_map_eq in Hb. injection Hb as <- <- <-.
  rewrite locate_chunks_placements, nth_error_map in H1, H2.
  destruct (nth_error _ i) as [p|] eqn:Hp; [|discriminate].
  destruct (nth_error _ (S i)) as [q|] eqn:Hq; [|discriminate].
  cbn in H1, H2. injection H1 as <-. injection H2 as <-.
  exact (placements_times_ordered snippets text_chunks i p q Hs Hp Hq).
Qed.

Lemma chunk_start_times_never_go_back_witness :
  let snippets :=
    [Snippet.Make "Hello world." (Finite 0);
     Snippet.Make "This is Fireship." (Finite 3);
     Snippet.Make "Learn in 100 seconds." (Finite 9)] in
  let chunks :=
    fst (locate_chunks "Hello world. This is Fireship. Learn in 100 seconds. "
           [(0, Finite 0); (13, Finite 3); (31, Finite 9)]
           ["Hello world. This is Fireship."; "Learn in 100 seconds."]) in
  chunks = [Chunk.Make "Hello world. This is Fireship." (Float (Finite 0));
            Chunk.Make "Learn in 100 seconds." (Float (Finite 9))]
  /\ time_le (Float (Finite 0)) (Float (Finite 9)).
Proof.
  intros snippets chunks. split; [reflexivity|].
  assert (Hs : StronglySorted float_le (map Snippet.start snippets)).
  { repeat first [apply SSorted_nil | apply SSorted_cons
                  | apply Forall_nil | apply Forall_cons];
      cbn; unfold Qle; cbn; lia. }
  exact (chunk_start_times_never_go_back snippets
           "Hello world. This is Fireship. Learn in 100 seconds. "
           [(0, Finite 0); (13, Finite 3); (31, Finite 9)] 53
           ["Hello world. This is Fireship."; "Learn in 100 seconds."] 0
           (Chunk.Make "Hello world. This is Fireship." (Float (Finite 0)))
           (Chunk.Make "Learn in 100 seconds." (Float (Finite 9)))
           Hs eq_refl eq_refl eq_refl).
Defined.

End TimestampOrder.

(** ** A cursor beyond the end of the buffer *)

Section CursorPastEnd.
Import Py Spec LoadToChroma.

Lemma index_beyond_end (sub s : string) :
  forall n, (String.length s < n)%nat -> index n sub s = None.
Proof.
  induction s as [|b s IH]; intros n Hn.
  - destruct n; [cbn in Hn; lia | reflexivity].
  - destruct n as [|n]; cbn [String.length] in Hn; [lia|].
    cbn [index]. rewrite IH by lia. reflexivity.
Qed.

Lemma find_beyond_end (s sub : string) (start : Z) :
  len s < start -> find s sub start = -1.
Proof.
  intros H. unfold find. pose proof (len_nonneg s).
  replace (start <? 0) with false by (symmetry; apply Z.ltb_ge; lia).
  rewrite index_beyond_end; [reflexivity|]. unfold len in H. lia.
Qed.

Lemma last_default_irrelevant {A} (l : list A) :
  forall x d d', last (x :: l) d = last (x :: l) d'.
Proof.
  induction l as [|y l IH]; intros x d d'; [reflexivity|].
  change (last (x :: y :: l) d) with (last (y :: l) d).
  change (last (x :: y :: l) d') with (last (y :: l) d'). apply IH.
Qed.

(** With every key at or before the position, the scan ends on the last
    entry. *)
Lemma scan_items_all_before (its : list (Z * Py.float)) (p : Z) :
  forall closest,
    (forall k v, In (k, v) its -> k <= p) ->
    scan_items its p closest = last (map Float (map snd its)) closest.
Proof.
  induction its as [|[k0 v0] rest IH]; intros closest Hall; [reflexivity|].
  cbn [scan_items map snd].
  replace (k0 <=? p) with true
    by (symmetry; apply Z.leb_le; apply (Hall k0 v0); now left).
  rewrite IH by (intros k v Hin; apply (Hall k v); now right).
  destruct (map Float (map snd rest)) as [|n l]; [reflexivity|].
  change (last (Float v0 :: n :: l) closest) with (last (n :: l) closest).
  apply last_default_irrelevant.
Qed.

Lemma final_cursor_grows (full_transcript : string) (text_chunks : list string) :
  forall search_start,
    search_start <= final_cursor full_transcript text_chunks search_start.
Proof.
  induction text_chunks as [|c cs IH]; intros ss; cbn [final_cursor]; [lia|].
  specialize (IH (resolve_offset full_transcript c ss + len c)).
  pose proof (resolve_offset_ge full_transcript c ss). pose proof (len_nonneg c). lia.
Qed.

Lemma final_cursor_app (full_transcript : string) (a b : list string) :
  forall search_start,
    final_cursor full_transcript (a ++ b) search_start
    = final_cursor full_transcript b (final_cursor full_transcript a search_start).
Proof.
  induction a as [|c cs IH]; intros ss; cbn [app final_cursor]; [reflexivity|].
  apply IH.
Qed.

(** From a cursor beyond the end of the builder's buffer, every chunk is
    emitted with the start time of the last snippet. *)
Lemma emitted_past_the_end (earlier : list Snippet.t) (s_last : Snippet.t)
  (text_chunks : list string) :
  let snippets := (earlier ++ [s_last])%list in
  forall search_start,
    len (joined snippets) < search_start ->
    map emitted
        (placements (joined snippets) (entries_from 0 snippets) text_chunks search_start)
    = map (fun t => Chunk.Make (strip t) (Float (Snippet.start s_last))) text_chunks.
Proof.
  intros snippets.
  induction text_chunks as [|c cs IH]; intros ss Hss; [reflexivity|].
  cbn [placements map emitted].
  assert (Hr : resolve_offset (joined snippets) c ss = ss)
    by (unfold resolve_offset; now rewrite find_beyond_end).
  rewrite Hr, IH by (pose proof (len_nonneg c); lia).
  f_equal. f_equal.
  unfold closest_timestamp, items. rewrite scan_items_all_before.
  - rewrite entries_from_values_in_order. subst snippets.
    rewrite !map_app. cbn [map]. now rewrite last_last.
  - intros k v Hkv. apply entries_from_keys_lt in Hkv. lia.
Qed.

(** Once the loop's cursor is beyond the end of the builder's buffer (it
    gets there by fallbacks), no later chunk is found, even one whose text
    stands in the buffer: [find] reports nothing, the chunk is placed at
    the cursor, and [locate_chunks] returns it with the start time of the
    last caption snippet; the cursor stays beyond the end. *)
Theorem cursor_past_the_end_pins_the_last_time (earlier : list Snippet.t)
  (s_last : Snippet.t) (buffer : string) (timestamp_map : dict Py.float)
  (current_pos : Z) (before after : list string) :
  build_timestamp_map (earlier ++ [s_last]) = (buffer, timestamp_map, current_pos) ->
  len buffer < snd (locate_chunks buffer timestamp_map before) ->
  fst (locate_chunks buffer timestamp_map (before ++ after))
  = (fst (locate_chunks buffer timestamp_map before)
     ++ map (fun t => Chunk.Make (strip t) (Float (Snippet.start s_last))) after)%list
  /\ len buffer < snd (locate_chunks buffer timestamp_map (before ++ after))
  /\ forall i t,
       nth_error after i = Some t ->
       let cursor :=
         snd (locate_chunks buffer timestamp_map (before ++ firstn i after)) in
       len buffer < cursor
       /\ find buffer t cursor = -1
       /\ resolve_offset buffer t cursor = cursor.
Proof.
  intros Hb Hpast.
  rewrite build_timestamp_map_eq in Hb. injection Hb as <- <- <-.
  rewrite locate_chunks_cursor in Hpast.
  split; [|split].
  - unfold locate_chunks at 1. rewrite fold_left_app.
    fold (locate_chunks (joined (earlier ++ [s_last]))
            (entries_from 0 (earlier ++ [s_last])) before).
    destruct (locate_chunks _ _ before) as [chunks ss] eqn:E.
    assert (Hss : ss = final_cursor (joined (earlier ++ [s_last])) before 0).
    { rewrite <- locate_chunks_cursor with (timestamp_map := entries_from 0 (earlier ++ [s_last])).
      now rewrite E. }
    rewrite locate_steps. cbn [fst].
    rewrite emitted_past_the_end; [reflexivity | now rewrite Hss].
  - rewrite locate_chunks_cursor, final_cursor_app.
    pose proof (final_cursor_grows (joined (earlier ++ [s_last])) after
                  (final_cursor (joined (earlier ++ [s_last])) before 0)). lia.
  - intros i t _ cursor.
    assert (Hc : len (joined (earlier ++ [s_last])) < cursor).
    { subst cursor. rewrite locate_chunks_cursor, final_cursor_app.
      pose proof (final_cursor_grows (joined (earlier ++ [s_last])) (firstn i after)
                    (final_cursor (joined (earlier ++ [s_last])) before 0)). lia. }
    split; [exact Hc|].
    assert (Hf : find (joined (earlier ++ [s_last])) t cursor = -1)
      by now apply find_beyond_end.
    split; [exact Hf|]. unfold resolve_offset. now rewrite Hf.
Qed.

Lemma cursor_past_the_end_pins_the_last_time_witness :
  find "ab cd " "ab" 0 = 0
  /\ fst (locate_chunks "ab cd " [(0, Finite 0); (3, Finite 7)] ["zzzzzzz"; "ab"])
     = [Chunk.Make "zzzzzzz" (Float (Finite 0)); Chunk.Make "ab" (Float (Finite 7))]
  /\ 6 < snd (locate_chunks "ab cd " [(0, Finite 0); (3, Finite 7)] ["zzzzzzz"; "ab"]).
Proof.
  split; [reflexivity|].
  assert (Hp : len "ab cd "
               < snd (locate_chunks "ab cd " [(0, Finite 0); (3, Finite 7)] ["zzzzzzz"]))
    by reflexivity.
  pose proof (cursor_past_the_end_pins_the_last_time
                [Snippet.Make "ab" (Finite 0)] (Snippet.Make "cd" (Finite 7))
                "ab cd " [(0, Finite 0); (3, Finite 7)] 6 ["zzzzzzz"] ["ab"]
                eq_refl Hp) as T.
  exact (conj (proj1 T) (proj1 (proj2 T))).
Defined.

End CursorPastEnd.

(** ** Trimmed texts *)

Section TrimmedTexts.
Import Py Spec LoadToChroma.

Lemma lstrip_head (s : string) (c : ascii) :
  get 0 (lstrip s) = Some c -> isspace c = false.
Proof.
  induction s as [|x s IH]; cbn [lstrip]; [discriminate|].
  destruct (isspace x) eqn:E; [exact IH|].
  cbn [get]. now intros [= <-].
Qed.

Lemma rstrip_head (s : string) (c : ascii) :
  get 0 (rstrip s) = Some c -> get 0 s = Some c.
Proof.
  destruct s as [|x s]; cbn [rstrip]; [discriminate|].
  destruct (rstrip s); [destruct (isspace x); [discriminate|]|]; exact (fun H => H).
Qed.

Lemma rstrip_last (s : string) (c : ascii) :
  get (String.length (rstrip s) - 1) (rstrip s) = Some c -> isspace c = false.
Proof.
  induction s as [|x s IH]; cbn [rstrip]; [discriminate|].
  destruct (rstrip s) as [|y r] eqn:E.
  - destruct (isspace x) eqn:Ex; [discriminate|]. cbn. now intros [= <-].
  - intros H. apply IH.
    cbn [String.length] in H |- *.
    replace (S (S (String.length r)) - 1)%nat with (S (String.length r)) in H by lia.
    replace (S (String.length r) - 1)%nat with (String.length r) by lia.
    exact H.
Qed.

Lemma strip_trimmed (s : string) : trimmed (strip s).
Proof.
  unfold trimmed, strip. intros c [H | H].
  - apply rstrip_head in H. now apply lstrip_head in H.
  - now apply rstrip_last in H.
Qed.

(** The text of every emitted chunk, and so the content of every record,
    neither starts nor ends with a whitespace character. *)
Theorem emitted_texts_are_trimmed (full_transcript : string)
  (timestamp_map : dict Py.float) (text_chunks : list string) (c : Chunk.t) :
  In c (fst (locate_chunks full_transcript timestamp_map text_chunks)) ->
  trimmed (Chunk.text c).
Proof.
  intros Hin. apply (in_map Chunk.text) in Hin.
  rewrite locate_chunks_texts in Hin.
  apply in_map_iff in Hin. destruct Hin as (t & <- & _). apply strip_trimmed.
Qed.

Lemma emitted_texts_are_trimmed_witness : trimmed "Hello world.".
Proof.
  refine (emitted_texts_are_trimmed
            "  Hello world.  " [(0, Finite 0)] ["  Hello world.  "]
            (Chunk.Make "Hello world." (Float (Finite 0))) _).
  left. reflexivity.
Defined.

End TrimmedTexts.

(** ** Records and their videos *)

Section RecordAttribution.
Import Py Spec LoadToChroma.

Variable fetch : string -> list string -> result (list Snippet.t).
Variable split_text : Z -> Z -> list string -> string -> result (list string).

Lemma contribution_records (video_url : string) (doc : Document.t) :
  In doc (contribution fetch split_text video_url) ->
  exists chunks chunk,
    chunks_body fetch split_text video_url CHUNK_SIZE CHUNK_OVERLAP = Ok chunks
    /\ In chunk chunks
    /\ doc = Document.Make (Chunk.text chunk) video_url (Chunk.start_time chunk).
Proof.
  unfold contribution, records_of.
  destruct (chunks_body _ _ _ _ _) as [chunks | e]; [|contradiction].
  intros Hin. apply in_map_iff in Hin. destruct Hin as (chunk & <- & Hin).
  now exists chunks, chunk.
Qed.

Lemma batch_records (video_urls : list string) (doc : Document.t) :
  In doc (flat_map (contribution fetch split_text) video_urls) ->
  In (Document.video_url doc) video_urls
  /\ exists chunks chunk,
       chunks_body fetch split_text (Document.video_url doc) CHUNK_SIZE CHUNK_OVERLAP
       = Ok chunks
       /\ In chunk chunks
       /\ Document.page_content doc = Chunk.text chunk
       /\ Document.start_time doc = Chunk.start_time chunk.
Proof.
  intros Hin. apply in_flat_map in Hin. destruct Hin as (url & Hurl & Hin).
  destruct (contribution_records _ _ Hin) as (chunks & chunk & Hb & Hc & ->).
  cbn. split; [exact Hurl|]. now exists chunks, chunk.
Qed.

(** Every record the batch loop makes carries the URL of a video of the
    batch, and its content and start time are those of a chunk of that
    very video; the loop hands records on only for videos whose chunking
    ran through. *)
Theorem every_record_belongs_to_its_video (video_urls : list string)
  (docs : list Document.t) (doc : Document.t) :
  process_videos fetch split_text video_urls [] = Ok docs ->
  In doc docs ->
  In (Document.video_url doc) video_urls
  /\ exists chunks chunk,
       chunks_body fetch split_text (Document.video_url doc) CHUNK_SIZE CHUNK_OVERLAP
       = Ok chunks
       /\ In chunk chunks
       /\ Document.page_content doc = Chunk.text chunk
       /\ Document.start_time doc = Chunk.start_time chunk.
Proof.
  rewrite process_videos_contributions. cbn [app]. intros [= <-]. apply batch_records.
Qed.

End RecordAttribution.

Lemma every_record_belongs_to_its_video_witness :
  let fetch := fun (video_id : string) (_ : list string) =>
    Py.Ok [Snippet.Make video_id (Py.Finite 2)] in
  let split_text := fun (_ _ : Z) (_ : list string) (text : string) => Py.Ok [text] in
  let doc := Document.Make "B" "https://www.youtube.com/watch?v=B" (Py.Float (Py.Finite 2)) in
  In (Document.video_url doc)
     ["https://www.youtube.com/watch?v=A"; "https://www.youtube.com/watch?v=B"]
  /\ exists chunks chunk,
       LoadToChroma.chunks_body fetch split_text (Document.video_url doc)
         LoadToChroma.CHUNK_SIZE LoadToChroma.CHUNK_OVERLAP = Py.Ok chunks
       /\ In chunk chunks
       /\ Document.page_content doc = Chunk.text chunk
       /\ Document.start_time doc = Chunk.start_time chunk.
Proof.
  intros fetch split_text doc.
  refine (every_record_belongs_to_its_video fetch split_text
            ["https://www.youtube.com/watch?v=A"; "https://www.youtube.com/watch?v=B"]
            [Document.Make "A" "https://www.youtube.com/watch?v=A" (Py.Float (Py.Finite 2)); doc]
            doc eq_refl _).
  right. left. reflexivity.
Defined.

Lemma chunk_start_time_from_snippets_witness :
  let fetch := fun (_ : string) (_ : list string) =>
    Py.Ok [Snippet.Make "Hello world." (Py.Finite 0);
           Snippet.Make "This is Fireship." (Py.Finite 3)] in
  let c := Chunk.Make "This is Fireship." (Py.Float (Py.Finite 3)) in
  Chunk.start_time c = Py.Int 0
  \/ exists s,
       In s [Snippet.Make "Hello world." (Py.Finite 0);
             Snippet.Make "This is Fireship." (Py.Finite 3)]
       /\ Chunk.start_time c = Py.Float (Snippet.start s).
Proof.
  intros fetch c.
  refine (chunk_start_time_from_snippets fetch
            (fun _ _ _ _ => Py.Ok ["Hello world."; "This is Fireship."])
            "https://www.youtube.com/watch?v=abc" 40 0 _
            [Chunk.Make "Hello world." (Py.Float (Py.Finite 0)); c] c eq_refl eq_refl _).
  right. left. reflexivity.
Defined.

(** ** The main block of the indexing script *)

Section IndexingScript.
Import Py Spec LoadToChroma LoadToChromaScript.

Variable extract_info : string -> result (list entry).
Variable fetch : string -> list string -> result (list Snippet.t).
Variable split_text : Z -> Z -> list string -> string -> result (list string).
Variable shutil_rmtree : string -> result unit.
Variable chroma_from_documents : list Document.t -> string -> result unit.

(** The calls and the end of the main block, by the removal and the
    documents made. *)
Lemma main_by_documents (db_exists : bool) :
  let docs :=
    flat_map (contribution fetch split_text)
             (get_video_urls extract_info PLAYLIST_URL (Some MAX_VIDEOS_TO_PROCESS)) in
  let removed := if db_exists then [rmtree CHROMA_DB_PATH] else [] in
  main extract_info fetch split_text shutil_rmtree chroma_from_documents db_exists
  = match (if db_exists then shutil_rmtree CHROMA_DB_PATH else Ok tt) with
    | Raise e => (removed, Raise e)
    | Ok _ =>
        match docs with
        | [] => (removed, Ok tt)
        | _ :: _ =>
            ((removed ++ [from_documents docs CHROMA_DB_PATH])%list,
             chroma_from_documents docs CHROMA_DB_PATH)
        end
    end.
Proof.
  intros docs removed. unfold main, remove_old_database.
  rewrite main_docs_contributions. fold docs. subst removed.
  destruct db_exists; [destruct (shutil_rmtree CHROMA_DB_PATH)|]; now destruct docs.
Qed.


(** The vector store is built at most once, at [CHROMA_DB_PATH], last of
    all calls, from a non-empty list of documents; each of them belongs to
    one of the first 20 URLs of the playlist listing; and the script ends
    the way the store's constructor does. *)
Theorem stored_documents_come_from_first_videos (db_exists : bool)
  (docs : list Document.t) (path : string) :
  In (from_documents docs path)
     (fst (main extract_info fetch split_text shutil_rmtree chroma_from_documents
             db_exists)) ->
  path = CHROMA_DB_PATH
  /\ docs <> []
  /\ fst (main extract_info fetch split_text shutil_rmtree chroma_from_documents
            db_exists)
     = ((if db_exists then [rmtree CHROMA_DB_PATH] else [])
        ++ [from_documents docs path])%list
  /\ snd (main extract_info fetch split_text shutil_rmtree chroma_from_documents
            db_exists)
     = chroma_from_documents docs path
  /\ exists entries,
       extract_info PLAYLIST_URL = Ok entries
       /\ forall doc, In doc docs ->
                      In (Document.video_url doc) (firstn 20 (listed_urls entries)).
Proof.
  rewrite main_by_documents. cbv zeta.
  set (urls := get_video_urls extract_info PLAYLIST_URL (Some MAX_VIDEOS_TO_PROCESS)).
  assert (Hurls : match extract_info PLAYLIST_URL with
                  | Ok entries => urls = firstn 20 (listed_urls entries)
                  | Raise _ => urls = []
                  end).
  { subst urls. unfold get_video_urls.
    destruct (extract_info PLAYLIST_URL); [|reflexivity].
    now rewrite collect_urls_listed. }
  pose proof (batch_records fetch split_text urls) as Hrec.
  set (removed := if db_exists then [rmtree CHROMA_DB_PATH] else []).
  assert (Hrem : forall d p, ~ In (from_documents d p) removed).
  { intros d p0 Hin. subst removed.
    destruct db_exists; [destruct Hin as [Hin | []]; discriminate Hin | contradiction]. }
  destruct (if db_exists then shutil_rmtree CHROMA_DB_PATH else Ok tt) as [u | e0];
    [|cbn [fst]; intros Hin; now apply Hrem in Hin].
  destruct (flat_map (contribution fetch split_text) urls) as [|d ds] eqn:E.
  - cbn [fst]. intros Hin. now apply Hrem in Hin.
  - cbn [fst snd]. intros Hin.
    assert (Heq : from_documents docs path = from_documents (d :: ds) CHROMA_DB_PATH).
    { apply in_app_or in Hin. destruct Hin as [Hin | [Hin | []]]; [|now symmetry].
      now apply Hrem in Hin. }
    injection Heq as -> ->.
    split; [reflexivity|]. split; [discriminate|]. split; [reflexivity|].
    split; [reflexivity|].
    destruct (extract_info PLAYLIST_URL) as [entries | e1].
    + exists entries. split; [reflexivity|]. intros doc Hdoc.
      rewrite <- Hurls. now apply Hrec.
    + rewrite Hurls in E. discriminate E.
Qed.

End IndexingScript.


Lemma stored_documents_come_from_first_videos_witness :
  let extract_info := fun _ : string =>
    Py.Ok [LoadToChroma.EntryDict (Some "https://www.youtube.com/watch?v=A")] in
  let fetch := fun (video_id : string) (_ : list string) =>
    Py.Ok [Snippet.Make video_id (Py.Finite 0)] in
  let split_text := fun (_ _ : Z) (_ : list string) (text : string) => Py.Ok [text] in
  let docs := [Document.Make "A" "https://www.youtube.com/watch?v=A" (Py.Float (Py.Finite 0))] in
  fst (LoadToChromaScript.main extract_info fetch split_text (fun _ => Py.Ok tt)
         (fun _ _ => Py.Ok tt) true)
  = [LoadToChromaScript.rmtree LoadToChromaScript.CHROMA_DB_PATH;
     LoadToChromaScript.from_documents docs LoadToChromaScript.CHROMA_DB_PATH].
Proof.
  intros extract_info fetch split_text docs.
  refine (proj1 (proj2 (proj2
    (stored_documents_come_from_first_videos extract_info fetch split_text
       (fun _ => Py.Ok tt) (fun _ _ => Py.Ok tt) true docs
       LoadToChromaScript.CHROMA_DB_PATH _)))).
  right. left. reflexivity.
Defined.

(** ** Questions and their sources *)

Section Questions.
Import Py Spec App.

Lemma prepare_sources_from (docs : list Document.t) :
  forall sources,
    prepare_sources docs sources
    = match prepare_sources docs [] with
      | Ok made => Ok (sources ++ made)%list
      | Raise e => Raise e
      end.
Proof.
  induction docs as [|doc rest IH]; intros sources; cbn [prepare_sources].
  - now rewrite app_nil_r.
  - destruct (format_timestamp_link _ _) as [l | e]; cbn [bind]; [|reflexivity].
    rewrite (IH (sources ++ _)%list), (IH ([] ++ _)%list).
    destruct (prepare_sources rest []); [|reflexivity].
    now rewrite <- app_assoc.
Qed.

Lemma prepare_sources_made (docs : list Document.t) :
  forall sources,
    prepare_sources docs [] = Ok sources -> Forall2 made_from docs sources.
Proof.
  induction docs as [|doc rest IH]; intros sources; cbn [prepare_sources].
  - intros [= <-]. constructor.
  - destruct (format_timestamp_link _ _) as [l | e] eqn:El; cbn [bind]; [|discriminate].
    rewrite prepare_sources_from.
    destruct (prepare_sources rest []) as [made | e]; [|discriminate].
    intros [= <-]. cbn [app]. constructor; [now split | now apply IH].
Qed.

Lemma prepare_sources_raises (docs : list Document.t) (doc : Document.t) :
  In doc docs ->
  num_value (Document.start_time doc) = None ->
  exists e, prepare_sources docs [] = Raise e.
Proof.
  intros Hin Hv. induction docs as [|d rest IH]; [contradiction|].
  cbn [prepare_sources].
  destruct (format_timestamp_link _ _) as [l | e] eqn:El; cbn [bind]; [|now exists e].
  rewrite prepare_sources_from.
  destruct Hin as [-> | Hin].
  - exfalso. unfold format_timestamp_link in El.
    destruct (Document.start_time doc) as [z | [q | neg |]]; cbn in Hv, El; discriminate.
  - destruct (IH Hin) as [e ->]. now exists e.
Qed.

(** What the handler does once the chain has returned. *)
Lemma on_chat_input_returned (w : world) (prompt : string) (c : chain)
  (response : Response.t) :
  qa_chain (session w) = Some c ->
  c prompt = Ok response ->
  on_chat_input prompt w
  = match prepare_sources (Response.source_documents response) [] with
    | Ok sources =>
        (Ok tt,
         World
           (SessionState
              (messages (session w)
               ++ [Message.Make "user" prompt None;
                   Message.Make "assistant" (Response.result response) (Some sources)])%list
              (api_key_configured (session w)) (qa_chain (session w)))
           (screen w
            ++ [chat_message "user"; write prompt; chat_message "assistant"; spinner;
                write (Response.result response)]
            ++ match sources with
               | [] => []
               | _ :: _ =>
                   expander_sources
                   :: show_sources 1 (Z.of_nat (List.length sources)) sources
               end)%list)
    | Raise e =>
        (Ok tt,
         World
           (SessionState
              (messages (session w)
               ++ [Message.Make "user" prompt None;
                   Message.Make "assistant" (error_message e) None])%list
              (api_key_configured (session w)) (qa_chain (session w)))
           (screen w
            ++ [chat_message "user"; write prompt; chat_message "assistant"; spinner;
                write (Response.result response); error (error_message e)])%list)
    end.
Proof.
  intros Hc Hr. rewrite on_chat_input_asked.
  unfold try_except, answer_body, answer_failed, abind, call_qa_chain, lift, show,
    append_message, asked.
  cbn [session screen qa_chain messages api_key_configured]. rewrite Hc, Hr.
  destruct (prepare_sources _ _) as [sources | e].
  - destruct sources as [|src rest].
    + unfold ret. cbn. now rewrite <- !app_assoc.
    + rewrite show_all_appends. cbn. now rewrite <- !app_assoc.
  - cbn. now rewrite <- !app_assoc.
Qed.

Lemma failed_question_config (w : world) (prompt : string) (c : chain) (e : exn) :
  qa_chain (session w) = Some c ->
  c prompt = Raise e ->
  api_key_configured (session (snd (on_chat_input prompt w)))
  = api_key_configured (session w)
  /\ qa_chain (session (snd (on_chat_input prompt w))) = qa_chain (session w).
Proof.
  intros Hc Hr. rewrite on_chat_input_asked.
  unfold try_except, answer_body, answer_failed, abind, call_qa_chain, show,
    append_message, asked.
  cbn [session screen qa_chain messages api_key_configured]. rewrite Hc, Hr. cbn.
  now split.
Qed.

Lemma on_chat_input_keeps_config (prompt : string) (w : world) :
  api_key_configured (session (snd (on_chat_input prompt w)))
  = api_key_configured (session w)
  /\ qa_chain (session (snd (on_chat_input prompt w))) = qa_chain (session w).
Proof.
  destruct (qa_chain (session w)) as [c|] eqn:Hc.
  - destruct (c prompt) as [response | e] eqn:Hr.
    + rewrite (on_chat_input_returned w prompt c response Hc Hr).
      destruct (prepare_sources _ _); cbn; now rewrite Hc.
    + destruct (failed_question_config w prompt c e Hc Hr) as [-> ->]. now rewrite Hc.
  - rewrite on_chat_input_asked.
    unfold try_except, answer_body, answer_failed, abind, call_qa_chain, show,
      append_message, asked.
    cbn [session screen qa_chain messages api_key_configured]. rewrite Hc. cbn.
    rewrite ?Hc. now split.
Qed.

End Questions.

(** ** The citations of an answer *)

Section Citations.
Import Py Spec App.

Lemma format_timestamp_link_floor (video_url : string) (t : num) (q : Q) :
  num_value t = Some q -> (0 <= q)%Q ->
  format_timestamp_link video_url t
  = Ok (video_url ++ "&t=" ++ str_of_int (Qfloor q) ++ "s").
Proof.
  intros Hv Hq. unfold format_timestamp_link. now rewrite (int_is_floor _ _ Hv Hq).
Qed.

Lemma prepare_sources_citations (docs : list Document.t) :
  (forall doc, In doc docs ->
               exists q, num_value (Document.start_time doc) = Some q /\ (0 <= q)%Q) ->
  prepare_sources docs [] = Ok (map citation docs).
Proof.
  induction docs as [|doc rest IH]; intros Hall; [reflexivity|].
  cbn [prepare_sources map].
  destruct (Hall doc (or_introl eq_refl)) as (q & Hv & Hq).
  rewrite (format_timestamp_link_floor _ _ _ Hv Hq). cbn [bind].
  rewrite prepare_sources_from, IH by (intros d Hd; apply Hall; now right).
  unfold citation at 2, floor_seconds. now rewrite Hv.
Qed.

(** The two lines drawn for the [i]-th source, numbered from [first]. *)
Lemma show_sources_nth (sources : list Source.t) :
  forall first n i source,
    nth_error sources i = Some source ->
    In (source_header (first + Z.of_nat i) (Source.link source))
       (show_sources first n sources)
    /\ In (markdown (excerpt_line source)) (show_sources first n sources).
Proof.
  induction sources as [|s rest IH]; intros first n i source Hnth.
  - destruct i; discriminate.
  - cbn [show_sources app]. destruct i as [|i]; cbn [nth_error] in Hnth.
    + injection Hnth as <-. rewrite Z.add_0_r. split; cbn; tauto.
    + destruct (IH (first + 1) n i source Hnth) as [Hh Hm].
      replace (first + Z.of_nat (S i)) with (first + 1 + Z.of_nat i) by lia.
      split; right; right; apply in_or_app; now right.
Qed.

(** C8.  When the chain returns, for every retrieved record with URL [u]
    and a finite start time [t >= 0], whatever their number: the link made
    for it is [u], then ["&t="], then the floor of [t] in decimal, then
    ["s"]; the sources stored with the answer are these citations, in the
    records' order; the page shows, for the [i]-th record, the header
    numbered [i + 1] with that link, and under it the line made of ["> "],
    the first 200 characters of the record's content (all of it when
    shorter) and ["..."]. *)
Theorem citation_link_and_excerpt (w : world) (prompt : string) (c : chain)
  (response : Response.t) :
  qa_chain (session w) = Some c ->
  c prompt = Ok response ->
  (forall doc, In doc (Response.source_documents response) ->
               exists q, num_value (Document.start_time doc) = Some q /\ (0 <= q)%Q) ->
  let docs := Response.source_documents response in
  let page := screen (snd (on_chat_input prompt w)) in
  prepare_sources docs [] = Ok (map citation docs)
  /\ messages (session (snd (on_chat_input prompt w)))
     = (messages (session w)
        ++ [Message.Make "user" prompt None;
            Message.Make "assistant" (Response.result response)
                         (Some (map citation docs))])%list
  /\ page
     = (screen w
        ++ [chat_message "user"; write prompt; chat_message "assistant"; spinner;
            write (Response.result response)]
        ++ match docs with
           | [] => []
           | _ :: _ =>
               expander_sources
               :: show_sources 1 (Z.of_nat (List.length docs)) (map citation docs)
           end)%list
  /\ forall i doc,
       nth_error docs i = Some doc ->
       exists q,
         num_value (Document.start_time doc) = Some q /\ (0 <= q)%Q
         /\ let link := Document.video_url doc ++ "&t=" ++ str_of_int (Qfloor q) ++ "s" in
            let shown_text := str_slice_to (Document.page_content doc) 200 in
            format_timestamp_link (Document.video_url doc) (Document.start_time doc)
            = Ok link
            /\ nth_error (map citation docs) i
               = Some (Source.Make link (Document.page_content doc))
            /\ In (source_header (1 + Z.of_nat i) link) page
            /\ In (markdown ("> " ++ shown_text ++ "...")) page
            /\ (exists rest, Document.page_content doc = shown_text ++ rest)
            /\ String.length shown_text
               = Nat.min 200 (String.length (Document.page_content doc)).
Proof.
  intros Hc Hr Hall docs page.
  pose proof (prepare_sources_citations docs Hall) as Hs.
  assert (Hpage : page
                  = (screen w
                     ++ [chat_message "user"; write prompt; chat_message "assistant";
                         spinner; write (Response.result response)]
                     ++ match docs with
                        | [] => []
                        | _ :: _ =>
                            expander_sources
                            :: show_sources 1 (Z.of_nat (List.length docs))
                                 (map citation docs)
                        end)%list).
  { subst page. rewrite (on_chat_input_returned w prompt c response Hc Hr).
    fold docs. rewrite Hs. cbn [snd screen]. rewrite length_map.
    now destruct docs. }
  split; [exact Hs|]. split; [|split; [exact Hpage|]].
  - rewrite (on_chat_input_returned w prompt c response Hc Hr). fold docs.
    now rewrite Hs.
  - intros i doc Hnth.
    destruct (Hall doc (nth_error_In _ _ Hnth)) as (q & Hv & Hq).
    exists q. split; [exact Hv|]. split; [exact Hq|]. intros link shown_text.
    assert (Hcit : citation doc = Source.Make link (Document.page_content doc)).
    { unfold citation, floor_seconds. now rewrite Hv. }
    assert (Hn : nth_error (map citation docs) i
                 = Some (Source.Make link (Document.page_content doc))).
    { rewrite nth_error_map, Hnth. cbn. now rewrite Hcit. }
    destruct (show_sources_nth (map citation docs) 1 (Z.of_nat (List.length docs))
                i _ Hn) as [Hh Hm].
    cbn [Source.link] in Hh.
    assert (Hin : forall u,
               In u (show_sources 1 (Z.of_nat (List.length docs)) (map citation docs)) ->
               In u page).
    { intros u Hu. rewrite Hpage. apply in_or_app. right. apply in_or_app. right.
      destruct docs; [destruct i; discriminate | now right]. }
    split; [now apply format_timestamp_link_floor|]. split; [exact Hn|].
    split; [now apply Hin|]. split; [now apply Hin|].
    apply (str_slice_to_prefix (Document.page_content doc) 200).
Qed.

Lemma citation_link_and_excerpt_witness :
  let docs :=
    [Document.Make "Go in 100 seconds" "https://www.youtube.com/watch?v=go"
                   (Float (Finite (7 # 2)));
     Document.Make "Rust in 100 seconds" "https://www.youtube.com/watch?v=rs"
                   (Int 0);
     Document.Make "Learn in 100 seconds." "https://www.youtube.com/watch?v=abc"
                   (Float (Finite (25 # 2)))] in
  let c : chain := fun question => Ok (Response.Make "Three videos." docs) in
  let w := World (SessionState [] true (Some c)) [] in
  prepare_sources docs []
  = Ok [Source.Make "https://www.youtube.com/watch?v=go&t=3s" "Go in 100 seconds";
        Source.Make "https://www.youtube.com/watch?v=rs&t=0s" "Rust in 100 seconds";
        Source.Make "https://www.youtube.com/watch?v=abc&t=12s" "Learn in 100 seconds."]
  /\ screen (snd (on_chat_input "What to watch?" w))
     = [chat_message "user"; write "What to watch?"; chat_message "assistant"; spinner;
        write "Three videos."; expander_sources;
        source_header 1 "https://www.youtube.com/watch?v=go&t=3s";
        markdown "> Go in 100 seconds..."; markdown "---";
        source_header 2 "https://www.youtube.com/watch?v=rs&t=0s";
        markdown "> Rust in 100 seconds..."; markdown "---";
        source_header 3 "https://www.youtube.com/watch?v=abc&t=12s";
        markdown "> Learn in 100 seconds...."].
Proof.
  intros docs c w.
  assert (Hall : forall doc, In doc docs ->
                   exists q, num_value (Document.start_time doc) = Some q /\ (0 <= q)%Q).
  { intros doc [<- | [<- | [<- | []]]];
      [exists (7 # 2) | exists (inject_Z 0) | exists (25 # 2)];
      (split; [reflexivity | unfold Qle; cbn; lia]). }
  pose proof (citation_link_and_excerpt w "What to watch?" c
                (Response.Make "Three videos." docs) eq_refl eq_refl Hall) as T.
  exact (conj (proj1 T) (proj1 (proj2 (proj2 T)))).
Defined.

End Citations.

Section QuestionProperties.
Import Py Spec App.

(** Whatever the chain and the retrieved records do, the handler of a
    question raises nothing, adds to the history exactly the question and
    one assistant message after it, and leaves the configured flag and the
    chain of the session as they were. *)
Theorem question_adds_one_exchange (prompt : string) (w : world) :
  fst (on_chat_input prompt w) = Ok tt
  /\ (exists reply,
        Message.role reply = "assistant"
        /\ messages (session (snd (on_chat_input prompt w)))
           = (messages (session w) ++ [Message.Make "user" prompt None; reply])%list)
  /\ api_key_configured (session (snd (on_chat_input prompt w)))
     = api_key_configured (session w)
  /\ qa_chain (session (snd (on_chat_input prompt w))) = qa_chain (session w).
Proof.
  destruct (on_chat_input_appends_two prompt w) as [Hok Hm].
  destruct (on_chat_input_keeps_config prompt w) as [Hc Hq].
  repeat split; assumption.
Qed.

(** When the chain returns and every retrieved record has a link, the
    answer is shown, followed by the sources when there are any, and it is
    stored with one source per retrieved document, in the documents' order,
    each with the link and the content of its document. *)
Theorem answered_question_is_recorded (w : world) (prompt : string) (c : chain)
  (response : Response.t) (sources : list Source.t) :
  qa_chain (session w) = Some c ->
  c prompt = Ok response ->
  prepare_sources (Response.source_documents response) [] = Ok sources ->
  messages (session (snd (on_chat_input prompt w)))
  = (messages (session w)
     ++ [Message.Make "user" prompt None;
         Message.Make "assistant" (Response.result response) (Some sources)])%list
  /\ Forall2 made_from (Response.source_documents response) sources
  /\ screen (snd (on_chat_input prompt w))
     = (screen w
        ++ [chat_message "user"; write prompt; chat_message "assistant"; spinner;
            write (Response.result response)]
        ++ match sources with
           | [] => []
           | _ :: _ =>
               expander_sources
               :: show_sources 1 (Z.of_nat (List.length sources)) sources
           end)%list.
Proof.
  intros Hc Hr Hs. rewrite (on_chat_input_returned w prompt c response Hc Hr), Hs.
  cbn [snd session messages screen]. split; [reflexivity|].
  split; [now apply prepare_sources_made | reflexivity].
Qed.

Lemma answered_question_is_recorded_witness :
  let c : chain := fun question =>
    Ok (Response.Make "Go is a compiled language."
          [Document.Make "Go in 100 seconds" "https://www.youtube.com/watch?v=go"
                         (Float (Finite (7 # 2)))]) in
  let w := World (SessionState [] true (Some c)) [] in
  messages (session (snd (on_chat_input "What is Go?" w)))
  = [Message.Make "user" "What is Go?" None;
     Message.Make "assistant" "Go is a compiled language."
       (Some [Source.Make "https://www.youtube.com/watch?v=go&t=3s" "Go in 100 seconds"])].
Proof.
  intros c w.
  exact (proj1 (answered_question_is_recorded w "What is Go?" c
                  (Response.Make "Go is a compiled language."
                     [Document.Make "Go in 100 seconds" "https://www.youtube.com/watch?v=go"
                                    (Float (Finite (7 # 2)))])
                  [Source.Make "https://www.youtube.com/watch?v=go&t=3s" "Go in 100 seconds"]
                  eq_refl eq_refl eq_refl)).
Defined.

(** When one retrieved record has a start time that is an infinity or
    NaN, no link can be made: the answer, already shown, is followed by an
    error, and the history keeps the error text in place of the answer. *)
Theorem unlinkable_record_loses_the_answer (w : world) (prompt : string)
  (c : chain) (response : Response.t) (doc : Document.t) :
  qa_chain (session w) = Some c ->
  c prompt = Ok response ->
  In doc (Response.source_documents response) ->
  num_value (Document.start_time doc) = None ->
  exists e,
    prepare_sources (Response.source_documents response) [] = Raise e
    /\ messages (session (snd (on_chat_input prompt w)))
       = (messages (session w)
          ++ [Message.Make "user" prompt None;
              Message.Make "assistant" (error_message e) None])%list
    /\ screen (snd (on_chat_input prompt w))
       = (screen w
          ++ [chat_message "user"; write prompt; chat_message "assistant"; spinner;
              write (Response.result response); error (error_message e)])%list.
Proof.
  intros Hc Hr Hin Hv.
  destruct (prepare_sources_raises _ _ Hin Hv) as [e He].
  exists e. rewrite (on_chat_input_returned w prompt c response Hc Hr), He.
  now repeat split.
Qed.

Lemma unlinkable_record_loses_the_answer_witness :
  let doc := Document.Make "Go in 100 seconds" "https://www.youtube.com/watch?v=go"
                           (Float NaN) in
  let c : chain := fun question => Ok (Response.Make "Go is a compiled language." [doc]) in
  let w := World (SessionState [] true (Some c)) [] in
  exists e,
    prepare_sources [doc] [] = Raise e
    /\ messages (session (snd (on_chat_input "What is Go?" w)))
       = [Message.Make "user" "What is Go?" None;
          Message.Make "assistant" (error_message e) None]
    /\ screen (snd (on_chat_input "What is Go?" w))
       = [chat_message "user"; write "What is Go?"; chat_message "assistant"; spinner;
          write "Go is a compiled language."; error (error_message e)].
Proof.
  intros doc c w.
  exact (unlinkable_record_loses_the_answer w "What is Go?" c
           (Response.Make "Go is a compiled language." [doc]) doc
           eq_refl eq_refl (or_introl eq_refl) eq_refl).
Defined.

(** [format_timestamp_link] returns a link exactly for the finite start
    times; for a finite start time that is not positive the seconds are
    its ceiling, since [int()] truncates toward zero (so [-0.5] gives
    [t=0s]). *)
Theorem timestamp_link_exists_for_finite_times (video_url : string) (t : num) :
  ((exists link, format_timestamp_link video_url t = Ok link)
   <-> exists q, num_value t = Some q)
  /\ forall q,
       num_value t = Some q -> (q <= 0)%Q ->
       format_timestamp_link video_url t
       = Ok (video_url ++ "&t=" ++ str_of_int (Qceiling q) ++ "s").
Proof.
  split.
  - unfold format_timestamp_link.
    destruct t as [z | [q | neg |]]; cbn; split; intros [x Hx];
      try discriminate; eauto.
  - intros q Hv Hq. unfold format_timestamp_link.
    assert (Hi : int t = Ok (Qceiling q)).
    { destruct t as [z | [x | neg |]]; cbn [num_value int] in *; try discriminate;
        injection Hv as <-; f_equal.
      - unfold Qceiling. change (- inject_Z z)%Q with (inject_Z (- z)).
        rewrite Qfloor_Z. lia.
      - destruct x as [n d]. unfold Qle in Hq. cbn in Hq.
        unfold Qceiling, Qfloor, Qopp. cbn [Qnum Qden].
        assert (Hn : n <= 0) by lia.
        replace n with (- - n) at 1 by lia.
        rewrite Z.quot_opp_l by lia.
        rewrite Z.quot_div_nonneg by lia. reflexivity. }
    now rewrite Hi.
Qed.

(** A content of at most 200 characters is shown whole, and the three
    dots are appended all the same. *)
Theorem short_content_is_shown_whole (source : Source.t) :
  (String.length (Source.content source) <= 200)%nat ->
  excerpt source = Source.content source
  /\ excerpt_line source = "> " ++ Source.content source ++ "...".
Proof.
  intros Hlen. unfold excerpt_line.
  assert (He : excerpt source = Source.content source).
  { unfold excerpt, str_slice_to.
    generalize dependent 200%nat. generalize (Source.content source).
    induction s as [|x s IH]; intros n Hn.
    - now destruct n.
    - destruct n as [|n]; cbn in Hn; [lia|]. cbn [substring]. rewrite IH; [reflexivity | lia]. }
  now rewrite He.
Qed.

Lemma short_content_is_shown_whole_witness :
  excerpt_line (Source.Make "https://www.youtube.com/watch?v=go&t=3s" "Go in 100 seconds")
  = "> Go in 100 seconds...".
Proof.
  refine (proj2 (short_content_is_shown_whole
                   (Source.Make "https://www.youtube.com/watch?v=go&t=3s"
                                "Go in 100 seconds") _)).
  cbn. lia.
Defined.

End QuestionProperties.

(** ** The history on later runs *)

Section History.
Import Py Spec App AppScript.

(** An answer for which nothing was retrieved is first shown without the
    sources expander, and on every later run with one, empty: the first
    render tests the list of sources, the history only the presence of the
    key. *)
Theorem history_draws_an_expander_without_sources (w : world) (prompt : string)
  (c : chain) (response : Response.t) :
  qa_chain (session w) = Some c ->
  c prompt = Ok response ->
  Response.source_documents response = [] ->
  screen (snd (on_chat_input prompt w))
  = (screen w
     ++ [chat_message "user"; write prompt; chat_message "assistant"; spinner;
         write (Response.result response)])%list
  /\ show_history (messages (session (snd (on_chat_input prompt w))))
     = (show_history (messages (session w))
        ++ [shown (chat_message "user"); shown (write prompt);
            shown (chat_message "assistant"); shown (write (Response.result response));
            shown expander_sources])%list.
Proof.
  intros Hc Hr Hd. rewrite (on_chat_input_returned w prompt c response Hc Hr), Hd.
  cbn [prepare_sources snd screen session messages]. split; [reflexivity|].
  unfold show_history. rewrite flat_map_app. reflexivity.
Qed.

Lemma history_draws_an_expander_without_sources_witness :
  let c : chain := fun question => Ok (Response.Make "I do not know." []) in
  let w := World (SessionState [] true (Some c)) [] in
  screen (snd (on_chat_input "What is Go?" w))
  = [chat_message "user"; write "What is Go?"; chat_message "assistant"; spinner;
     write "I do not know."]
  /\ show_history (messages (session (snd (on_chat_input "What is Go?" w))))
     = [shown (chat_message "user"); shown (write "What is Go?");
        shown (chat_message "assistant"); shown (write "I do not know.");
        shown expander_sources].
Proof.
  intros c w.
  exact (history_draws_an_expander_without_sources w "What is Go?" c
           (Response.Make "I do not know." []) eq_refl eq_refl eq_refl).
Defined.

Lemma show_sources_lines (sources : list Source.t) (source : Source.t) :
  forall i n,
    In source sources ->
    In (markdown (excerpt_line source)) (show_sources i n sources)
    /\ exists j, i <= j /\ In (source_header j (Source.link source)) (show_sources i n sources).
Proof.
  induction sources as [|s rest IH]; intros i n Hin; [contradiction|].
  cbn [show_sources]. destruct Hin as [-> | Hin].
  - split; [cbn; tauto|]. exists i. split; [lia | cbn; tauto].
  - destruct (IH (i + 1) n Hin) as [Hm (j & Hj & Hh)]. cbn [app]. split.
    + right. right. apply in_or_app. now right.
    + exists j. split; [lia|]. right. right. apply in_or_app. now right.
Qed.

(** Every source of a stored answer is drawn on later runs with the link
    and the excerpt line it had when the answer was first shown. *)
Theorem history_repeats_links_and_excerpts (answer : string)
  (sources : list Source.t) (source : Source.t) :
  In source sources ->
  let first := show_sources 1 (Z.of_nat (List.length sources)) sources in
  let later := show_message (Message.Make "assistant" answer (Some sources)) in
  (exists j, In (source_header j (Source.link source)) first)
  /\ In (markdown (excerpt_line source)) first
  /\ In (video_moment (Source.link source)) later
  /\ In (shown (markdown (excerpt_line source))) later.
Proof.
  intros Hin first later.
  destruct (show_sources_lines sources source 1 (Z.of_nat (List.length sources)) Hin)
    as [Hm (j & _ & Hh)].
  split; [now exists j|]. split; [exact Hm|].
  subst later. unfold show_message. cbn [Message.role Message.content Message.sources].
  cbn [String.eqb Ascii.eqb Bool.eqb app].
  assert (G : forall it,
             In it [video_moment (Source.link source);
                    shown (markdown (excerpt_line source));
                    shown (markdown "---")] ->
             In it (flat_map
                      (fun s => [video_moment (Source.link s);
                                 shown (markdown (excerpt_line s));
                                 shown (markdown "---")]) sources)).
  { intros it Hit. apply in_flat_map. now exists source. }
  split; right; right; right; apply G; cbn; tauto.
Qed.

Lemma history_repeats_links_and_excerpts_witness :
  let source := Source.Make "https://www.youtube.com/watch?v=go&t=3s" "Go in 100 seconds" in
  In (video_moment (Source.link source))
     (show_message (Message.Make "assistant" "Go is a compiled language." (Some [source])))
  /\ In (shown (markdown "> Go in 100 seconds..."))
        (show_message (Message.Make "assistant" "Go is a compiled language." (Some [source]))).
Proof.
  intros source.
  exact (proj2 (proj2 (history_repeats_links_and_excerpts
                         "Go is a compiled language." [source] source
                         (or_introl eq_refl)))).
Defined.

End History.

(** ** Runs of the chat script *)

Section ScriptRuns.
Import Py Spec App AppScript.

Variable build_chain : string -> result chain.

(** The chat-input branch on a page: it ends the run normally. *)
Lemma answer_on_page (prompt : string) (p : page) :
  fst (answer prompt p) = Finished
  /\ (exists reply,
        Message.role reply = "assistant"
        /\ messages (state (snd (answer prompt p)))
           = (messages (state p) ++ [Message.Make "user" prompt None; reply])%list)
  /\ api_key_configured (state (snd (answer prompt p))) = api_key_configured (state p)
  /\ qa_chain (state (snd (answer prompt p))) = qa_chain (state p)
  /\ GOOGLE_API_KEY (snd (answer prompt p)) = GOOGLE_API_KEY p.
Proof.
  unfold answer.
  destruct (on_chat_input_appends_two prompt (World (state p) [])) as [Hok Hm].
  destruct (on_chat_input_keeps_config prompt (World (state p) [])) as [Hc Hq].
  destruct (on_chat_input prompt (World (state p) [])) as [r w].
  cbn [fst snd session] in *. subst r. cbn. repeat split; assumption.
Qed.

Lemma main_keeps_session_ok (i : inputs) (s : session_state) (env : option string) :
  session_ok s ->
  session_ok (state (snd (main build_chain i s env)))
  /\ forall e, fst (main build_chain i s env) <> Raised e.
Proof.
  intros [Hc Hn]. unfold main, sidebar, load_components.
  destruct s as [msgs cfg ch]. cbn in Hc, Hn. cbn.
  destruct cfg; cbn.
  - destruct (Hc eq_refl) as [c ->]. clear Hc Hn.
    destruct (reset_clicked i); cbn.
    { split; [|discriminate]. split; cbn; [discriminate | auto]. }
    assert (Hok : forall msgs', session_ok (SessionState msgs' true (Some c))).
    { intros msgs'. split; cbn; [eauto | discriminate]. }
    assert (Hchat : forall p,
               api_key_configured (state p) = true ->
               qa_chain (state p) = Some c ->
               let r := match chat_input i with
                        | Some prompt =>
                            if truthy_str prompt then answer prompt p else (Finished, p)
                        | None => (Finished, p)
                        end in
               session_ok (state (snd r)) /\ forall e, fst r <> Raised e).
    { intros p Hp Hq r. subst r.
      assert (Hsame : session_ok (state p)).
      { destruct (state p) as [m a q]. cbn in Hp, Hq. subst. apply Hok. }
      destruct (chat_input i) as [prompt|]; [|split; [exact Hsame | discriminate]].
      destruct (truthy_str prompt); [|split; [exact Hsame | discriminate]].
      destruct (answer_on_page prompt p) as (Hf & _ & Ha & Hb & _).
      rewrite Hf. split; [|discriminate].
      destruct (state (snd (answer prompt p))) as [m a q]. cbn in Ha, Hb.
      rewrite Ha, Hb, Hp, Hq. apply Hok. }
    destruct msgs as [|m msgs]; cbn.
    + apply Hchat; reflexivity.
    + destruct (clear_clicked i); cbn.
      * split; [apply Hok | discriminate].
      * apply Hchat; reflexivity.
  - destruct (Hn eq_refl) as [-> ->]. clear Hc Hn.
    assert (Hinit : session_ok (SessionState [] false None)).
    { split; cbn; [discriminate | auto]. }
    destruct (configure_clicked i); cbn; [|split; [exact Hinit | discriminate]].
    destruct (truthy_str (google_api_key i)); cbn; [|split; [exact Hinit | discriminate]].
    destruct (build_chain (google_api_key i)) as [c | e]; cbn.
    + split; [|discriminate]. split; cbn; [eauto | discriminate].
    + split; [exact Hinit | discriminate].
Qed.

(** Starting from the initial session, whatever the user does over any
    number of runs, the session stays well formed (with a key configured
    there is a chain to call; without one there is none and the history is
    empty), and no run ends by an exception. *)
Theorem every_run_keeps_the_session_sound (steps : list inputs) (env : option string) :
  session_ok (fst (runs build_chain steps initial_session env))
  /\ forall before i after,
       steps = (before ++ i :: after)%list ->
       forall e,
         fst (main build_chain i
                (fst (runs build_chain before initial_session env))
                (snd (runs build_chain before initial_session env)))
         <> Raised e.
Proof.
  assert (Hinit : session_ok initial_session).
  { split; cbn; [discriminate | auto]. }
  assert (G : forall steps s env,
             session_ok s -> session_ok (fst (runs build_chain steps s env))).
  { induction steps0 as [|i rest IH]; intros s env0 Hs; [exact Hs|].
    cbn [runs]. apply IH. now apply main_keeps_session_ok. }
  split; [now apply G|].
  intros before i after _ e. apply main_keeps_session_ok. now apply G.
Qed.

(** Pressing "Reset API Key" returns the session to its initial state and
    restarts the script; the key stays in the environment. *)
Theorem reset_clears_the_session_not_the_key (i : inputs) (s : session_state)
  (env : option string) :
  api_key_configured s = true ->
  reset_clicked i = true ->
  fst (main build_chain i s env) = Rerun
  /\ state (snd (main build_chain i s env)) = initial_session
  /\ GOOGLE_API_KEY (snd (main build_chain i s env)) = env.
Proof.
  intros Hc Hr. unfold main, sidebar. destruct s as [msgs cfg ch]. cbn in Hc. subst cfg.
  cbn. rewrite Hr. cbn. now repeat split.
Qed.


(** While no key is configured a submitted question is dropped: the
    history is not touched and nothing of the chat is drawn, also in the
    run that configures the key. *)
Theorem question_without_key_is_dropped (i : inputs) (s : session_state)
  (env : option string) :
  session_ok s ->
  api_key_configured s = false ->
  messages (state (snd (main build_chain i s env))) = messages s
  /\ forall u, In (shown u) (out (snd (main build_chain i s env))) ->
               match u with
               | chat_message _ | write _ | spinner | expander_sources
               | source_header _ _ => False
               | markdown _ | error _ => True
               end.
Proof.
  intros [_ Hs] Hc. unfold main, sidebar, load_components.
  destruct s as [msgs cfg ch]. cbn in Hc, Hs. subst cfg.
  destruct (Hs eq_refl) as [-> ->]. cbn.
  destruct (configure_clicked i); cbn;
    [destruct (truthy_str (google_api_key i)); cbn;
     [destruct (build_chain (google_api_key i)) as [c | e]; cbn|]|];
    (split; [reflexivity|]);
    intros u Hin;
    repeat (destruct Hin as [Hin | Hin];
            [try discriminate Hin; try (injection Hin as <-; exact I)|]);
    try contradiction.
Qed.

(** Pressing "Clear Chat History", offered when the history is not
    empty, empties the history, keeps the key configured and the chain,
    and restarts the script before the chat is reached: a question
    submitted with it is not answered. *)
Theorem clearing_keeps_the_configuration (i : inputs) (s : session_state)
  (env : option string) :
  api_key_configured s = true ->
  messages s <> [] ->
  reset_clicked i = false ->
  clear_clicked i = true ->
  fst (main build_chain i s env) = Rerun
  /\ state (snd (main build_chain i s env)) = SessionState [] true (qa_chain s)
  /\ GOOGLE_API_KEY (snd (main build_chain i s env)) = env.
Proof.
  intros Hc Hm Hr Hk. unfold main, sidebar.
  destruct s as [msgs cfg ch]. cbn in Hc, Hm. subst cfg. cbn. rewrite Hr. cbn.
  destruct msgs as [|m msgs]; [contradiction|]. cbn. rewrite Hk. cbn.
  now repeat split.
Qed.

(** With a key configured and neither button pressed, the run reaches the
    chat: the page then holds the heading, the history and the input box. *)
Lemma configured_run_reaches_chat (i : inputs) (s : session_state)
  (env : option string) :
  api_key_configured s = true ->
  reset_clicked i = false ->
  clear_clicked i = false ->
  exists p,
    state p = s
    /\ GOOGLE_API_KEY p = env
    /\ (exists before,
          out p = (before ++ chat_header :: show_history (messages s)
                   ++ [chat_input_box])%list)
    /\ main build_chain i s env
       = match chat_input i with
         | Some prompt =>
             if truthy_str prompt then answer prompt p else (Finished, p)
         | None => (Finished, p)
         end.
Proof.
  intros Hc Hr Hk. unfold main, sidebar.
  destruct s as [msgs cfg ch]. cbn in Hc. subst cfg.
  cbn -[answer show_history]. rewrite Hr. cbn -[answer show_history].
  destruct msgs as [|m msgs]; cbn -[answer show_history]; rewrite ?Hk;
    cbn -[answer show_history];
    match goal with
    | |- exists p, _ /\ _ /\ _ /\ match chat_input i with
                                  | Some _ => _
                                  | None => (Finished, ?P)
                                  end = _ => exists P
    end;
    (split; [reflexivity|]); (split; [reflexivity|]); (split; [|reflexivity]);
    cbn -[show_history].
  - now exists [page_config; title;
                shown (markdown "Ask questions about Fireship's '100 Seconds of Code' videos and get answers powered by Google Gemini!");
                sidebar_header; success_configured;
                shown (markdown "**Step 2:** You can now close this sidebar and start chatting!");
                button "Reset API Key"; shown (markdown "---");
                shown (markdown "### About");
                shown (markdown "This app searches through Fireship's YouTube transcripts to answer your questions about programming concepts, tools, and technologies.")].
  - now exists [page_config; title;
                shown (markdown "Ask questions about Fireship's '100 Seconds of Code' videos and get answers powered by Google Gemini!");
                sidebar_header; success_configured;
                shown (markdown "**Step 2:** You can now close this sidebar and start chatting!");
                button "Reset API Key"; shown (markdown "---");
                shown (markdown "### About");
                shown (markdown "This app searches through Fireship's YouTube transcripts to answer your questions about programming concepts, tools, and technologies.");
                button "Clear Chat History"].
Qed.

(** A question submitted with a key configured, and neither button
    pressed: the run draws the history as it was, then the exchange; it
    ends normally with the history grown by the question and one assistant
    message. *)
Theorem configured_run_answers_the_question (i : inputs) (s : session_state)
  (env : option string) (prompt : string) :
  api_key_configured s = true ->
  reset_clicked i = false ->
  clear_clicked i = false ->
  chat_input i = Some prompt ->
  prompt <> "" ->
  let r := main build_chain i s env in
  fst r = Finished
  /\ (exists reply,
        Message.role reply = "assistant"
        /\ messages (state (snd r))
           = (messages s ++ [Message.Make "user" prompt None; reply])%list)
  /\ exists before,
       out (snd r)
       = (before ++ chat_header :: show_history (messages s)
          ++ chat_input_box
             :: map shown (screen (snd (on_chat_input prompt (World s [])))))%list.
Proof.
  intros Hc Hr Hk Hi Hp r. subst r.
  assert (Ht : truthy_str prompt = true).
  { unfold truthy_str. destruct (String.eqb_spec prompt ""); [contradiction | reflexivity]. }
  destruct (configured_run_reaches_chat i s env Hc Hr Hk)
    as (p & Hs & _ & (before & Ho) & ->).
  rewrite Hi, Ht.
  destruct (answer_on_page prompt p) as (Hf & Hm & _).
  rewrite Hs in Hm.
  split; [exact Hf|]. split; [exact Hm|].
  exists before. unfold answer. rewrite Hs.
  destruct (on_chat_input prompt (World s [])) as [[|] w];
    cbn [snd out emits set_state screen]; rewrite Ho, <- app_assoc; cbn [app];
    rewrite <- app_assoc; reflexivity.
Qed.

End ScriptRuns.

Lemma reset_clears_the_session_not_the_key_witness :
  let c : App.chain := fun _ => Py.Ok (Response.Make "yes" []) in
  let s := App.SessionState [Message.Make "user" "hi" None] true (Some c) in
  let i := AppScript.Inputs "" false true false None in
  fst (AppScript.main (fun _ => Py.Ok c) i s (Some "secret")) = AppScript.Rerun
  /\ AppScript.state (snd (AppScript.main (fun _ => Py.Ok c) i s (Some "secret")))
     = AppScript.initial_session
  /\ AppScript.GOOGLE_API_KEY (snd (AppScript.main (fun _ => Py.Ok c) i s (Some "secret")))
     = Some "secret".
Proof.
  intros c s i.
  exact (reset_clears_the_session_not_the_key (fun _ => Py.Ok c) i s (Some "secret")
           eq_refl eq_refl).
Defined.


Lemma question_without_key_is_dropped_witness :
  let build_chain := fun _ : string =>
    @Py.Raise App.chain (Py.Exn "ValueError" "API key not valid") in
  let i := AppScript.Inputs "" false false false (Some "What is Go?") in
  App.messages
    (AppScript.state (snd (AppScript.main build_chain i AppScript.initial_session None)))
  = [].
Proof.
  intros build_chain i.
  assert (Hok : Spec.session_ok AppScript.initial_session).
  { split; cbn; [discriminate | auto]. }
  exact (proj1 (question_without_key_is_dropped build_chain i AppScript.initial_session
                  None Hok eq_refl)).
Defined.

Lemma clearing_keeps_the_configuration_witness :
  let c : App.chain := fun _ => Py.Ok (Response.Make "yes" []) in
  let s := App.SessionState [Message.Make "user" "hi" None] true (Some c) in
  let i := AppScript.Inputs "" false false true (Some "What is Go?") in
  fst (AppScript.main (fun _ => Py.Ok c) i s None) = AppScript.Rerun
  /\ AppScript.state (snd (AppScript.main (fun _ => Py.Ok c) i s None))
     = App.SessionState [] true (Some c)
  /\ AppScript.GOOGLE_API_KEY (snd (AppScript.main (fun _ => Py.Ok c) i s None)) = None.
Proof.
  intros c s i.
  refine (clearing_keeps_the_configuration (fun _ => Py.Ok c) i s None
            eq_refl _ eq_refl eq_refl).
  discriminate.
Defined.

Lemma configured_run_answers_the_question_witness :
  let c : App.chain := fun _ => Py.Ok (Response.Make "Go is a compiled language." []) in
  let s := App.SessionState [] true (Some c) in
  let i := AppScript.Inputs "" false false false (Some "What is Go?") in
  fst (AppScript.main (fun _ => Py.Ok c) i s None) = AppScript.Finished
  /\ exists reply,
       Message.role reply = "assistant"
       /\ App.messages (AppScript.state (snd (AppScript.main (fun _ => Py.Ok c) i s None)))
          = [Message.Make "user" "What is Go?" None; reply].
Proof.
  intros c s i.
  assert (Hp : "What is Go?" <> "") by discriminate.
  pose proof (configured_run_answers_the_question (fun _ => Py.Ok c) i s None
                "What is Go?" eq_refl eq_refl eq_refl eq_refl Hp) as T.
  exact (conj (proj1 T) (proj1 (proj2 T))).
Defined.
